(** * gbfs-trip: trip detection from a GBFS free-bike feed

    A shallow embedding of [main.py]: the planar distance, the
    nearest-station lookup of [Bike.find_station], the registry built by
    [BikeRegistry.__init__], the reconciliation loop of
    [BikeRegistry.update] and the trip records of [new_trip], followed by
    the properties of the design document that concern them.

    Conventions of the embedding.
    - Coordinates are binary64 floats (what [json.load] yields for the
      decimal literals of the feed); [last_updated], [ttl] and durations
      are Python integers, hence [Z].
    - A Python exception is a value: pure code returns [result], the
      methods of the registry run in a state-and-exception monad whose
      state survives a raise, as the attributes of a Python object do.
    - [print] is not modelled. *)

From Stdlib Require Import ZArith Lia Ascii Sorted.
From Stdlib Require Import Floats.PrimFloat Floats.SpecFloat Floats.FloatOps Floats.FloatAxioms.
From Equations Require Import Equations.
From stdpp Require Import gmap strings list.

(** ** Exceptions and the two monads *)

Inductive exn : Type :=
| IndexError
| KeyError (key : string)
| TypeError
| ValueError
| UnicodeDecodeError
| OverflowError
| SystemExit (msg : string).

Inductive result (A : Type) : Type :=
| Ok (a : A)
| Raise (e : exn).
Arguments Ok {A} a.
Arguments Raise {A} e.

#[export] Instance result_ret : MRet result := @Ok.
#[export] Instance result_bind : MBind result := λ A B k r,
  match r with
  | Ok a => k a
  | Raise e => Raise e
  end.

(** [a[i]] on a Python list, for an index that is not negative. *)
Definition getitem {A} (a : list A) (i : nat) : result A :=
  match a !! i with
  | Some x => Ok x
  | None => Raise IndexError
  end.

(** ** Floats and the mathematics library *)

Definition pi : float := 0x1.921fb54442d18p+1%float.

(** [math.radians]: multiplication by the constant [pi / 180.0]. *)
Definition radians (x : float) : float := (x * (pi / 180))%float.

(** [math.sqrt]: the IEEE square root, [ValueError] below zero. *)
Definition math_sqrt (x : float) : result float :=
  if (x <? 0)%float then Raise ValueError else Ok (sqrt x).

(** What the C mathematics library contributes: [math.cos], and the
    [** 2] of a float ([pow(x, 2.0)] with CPython's overflow check).
    Neither is fixed by IEEE 754, so the model is parametric in them. *)
Class Libm : Type := {
  math_cos : float → result float;
  float_sq : float → result float
}.

(** The duck type of [distance]: anything with [lat] and [lon]. *)
Class HasCoords (A : Type) : Type := {
  lat : A → float;
  lon : A → float
}.

(** ** Stations and bikes *)

(** A station id is the string of the feed, or the integer 0 of the
    flex-parking placeholder. *)
Inductive pyid : Type :=
| IdStr (s : string)
| IdInt (n : Z).

Record Station : Type := mkStation {
  s_id : pyid;
  s_name : string;
  s_lat : float;
  s_lon : float
}.

Record Bike : Type := mkBike {
  b_lat : float;
  b_lon : float;
  b_last_seen : Z
}.

#[export] Instance Station_coords : HasCoords Station :=
  {| lat := s_lat; lon := s_lon |}.
#[export] Instance Bike_coords : HasCoords Bike :=
  {| lat := b_lat; lon := b_lon |}.

(** [__lt__] of both classes: [self.lon < other.lon]. *)
Definition py_lt {A B} `{HasCoords A, HasCoords B} (self : A) (other : B) : bool :=
  (lon self <? lon other)%float.

(** ** [bisect.bisect_left] and [bisect.bisect_right] *)

Section Bisect.
Context {A X : Type} (lt_ax : A → X → bool) (lt_xa : X → A → bool).

Equations? bisect_left_loop (a : list A) (x : X) (lo hi : nat) : result nat
  by wf (hi - lo) lt :=
  bisect_left_loop a x lo hi with decide (lo < hi) => {
    | right _ => Ok lo
    | left _ with a !! ((lo + hi) `div` 2) => {
        | None => Raise IndexError
        | Some am with lt_ax am x => {
            | true => bisect_left_loop a x (S ((lo + hi) `div` 2)) hi
            | false => bisect_left_loop a x lo ((lo + hi) `div` 2) } } }.
Proof.
  all: pose proof (Nat.div_mod_eq (lo + hi) 2);
    pose proof (Nat.mod_upper_bound (lo + hi) 2); lia.
Qed.

Equations? bisect_right_loop (a : list A) (x : X) (lo hi : nat) : result nat
  by wf (hi - lo) lt :=
  bisect_right_loop a x lo hi with decide (lo < hi) => {
    | right _ => Ok lo
    | left _ with a !! ((lo + hi) `div` 2) => {
        | None => Raise IndexError
        | Some am with lt_xa x am => {
            | true => bisect_right_loop a x lo ((lo + hi) `div` 2)
            | false => bisect_right_loop a x (S ((lo + hi) `div` 2)) hi } } }.
Proof.
  all: pose proof (Nat.div_mod_eq (lo + hi) 2);
    pose proof (Nat.mod_upper_bound (lo + hi) 2); lia.
Qed.

Definition bisect_left (a : list A) (x : X) : result nat :=
  bisect_left_loop a x 0 (length a).

Definition bisect_right (a : list A) (x : X) : result nat :=
  bisect_right_loop a x 0 (length a).
End Bisect.

(** ** [distance] *)

(** Planar distance in metres; operands are evaluated in Python's order,
    so the first failing library call is the one that raises. *)
Definition distance `{Libm} {A B} `{HasCoords A, HasCoords B}
    (obj1 : A) (obj2 : B) : result float :=
  let lat1 := radians (lat obj1) in
  let lat2 := radians (lat obj2) in
  let del_lat := (lat2 - lat1)%float in
  let del_lon := radians (lon obj2 - lon obj1)%float in
  let mean_lat := ((lat1 + lat2) / 2)%float in
  let r := 6371e3%float in
  sq_lat ← float_sq del_lat;
  c ← math_cos mean_lat;
  sq_lon ← float_sq (c * del_lon)%float;
  root ← math_sqrt (sq_lat + sq_lon)%float;
  Ok (r * root)%float.

(** ** The JSON documents

    What [json.load] returns, as far as the code looks into it. Where the
    code subscripts a value with a string, the value is an object, or it
    is something else (an array, a string, a number, a boolean, null) and
    the subscript raises [TypeError]. An object is kept as the record of
    the members the code reads, each of which may be absent ([None]): a
    subscript on an absent key raises [KeyError]. The members of a
    station entry and of a bike entry that are present have the type the
    GBFS schema gives them; entries with members of other types, which
    the constructors would store as they are, are not represented. *)

Definition subscript {A} (key : string) (v : option A) : result A :=
  match v with
  | Some a => Ok a
  | None => Raise (KeyError key)
  end.

Record station_json : Type := mkStationJson {
  sj_station_id : option pyid;
  sj_name : option string;
  sj_lat : option float;
  sj_lon : option float
}.

(** A value in the place of a station entry: an object or not. *)
Inductive json_station : Type :=
| JStationObject (station_json : station_json)
| JStationOther.

(** A value in the place of [data.stations]. The loop [for station_json
    in stations_json] runs over the items of an array; over the keys of
    an object and over the characters of a string, [n] strings in both
    cases; on a number, a boolean or null it raises [TypeError]. *)
Inductive json_stations : Type :=
| JStationsArray (items : list json_station)
| JStationsStrings (n : nat)
| JStationsOther.

(** A value in the place of [data], and the document itself. *)
Inductive json_data : Type :=
| JDataObject (stations : option json_stations)
| JDataOther.

Inductive station_information : Type :=
| JDocumentObject (data : option json_data)
| JDocumentOther.

(** [json.load(data)["data"]] and [...["stations"]] *)
Definition subscript_data (doc : station_information) : result json_data :=
  match doc with
  | JDocumentObject data => subscript "data" data
  | JDocumentOther => Raise TypeError
  end.

Definition subscript_stations (data : json_data) : result json_stations :=
  match data with
  | JDataObject stations => subscript "stations" stations
  | JDataOther => Raise TypeError
  end.

(** What [for station_json in stations_json] iterates over. *)
Definition iter_stations (stations_json : json_stations)
    : result (list json_station) :=
  match stations_json with
  | JStationsArray items => Ok items
  | JStationsStrings n => Ok (replicate n JStationOther)
  | JStationsOther => Raise TypeError
  end.

(** The poll document is taken well formed: every key [update] reads is
    present. *)
Record bike_json : Type := mkBikeJson {
  bj_bike_id : string;
  bj_lat : float;
  bj_lon : float;
  bj_is_disabled : Z
}.

Record free_bike_status : Type := mkFreeBikeStatus {
  fbs_last_updated : Z;
  fbs_ttl : Z;
  fbs_bikes : list bike_json
}.

(** [json.load(urlopen(url))] as seen by its caller: it raises one of the
    two exceptions the callers catch, or another exception (a
    [UnicodeDecodeError] on bytes that are not UTF-8, a [ValueError] on
    an integer literal that is too long, ...), or returns the decoded
    document. *)
Inductive fetched (A : Type) : Type :=
| FetchIOError
| FetchJSONDecodeError
| FetchRaises (e : exn)
| Fetched (doc : A).
Arguments FetchIOError {A}.
Arguments FetchJSONDecodeError {A}.
Arguments FetchRaises {A} e.
Arguments Fetched {A} doc.

(** [Station.__init__] *)
Definition Station_init (station_json : station_json) : result Station :=
  id ← subscript "station_id" (sj_station_id station_json);
  name ← subscript "name" (sj_name station_json);
  lat ← subscript "lat" (sj_lat station_json);
  lon ← subscript "lon" (sj_lon station_json);
  Ok (mkStation id name lat lon).

(** [Station(station_json)] on any value: the first subscript of
    [__init__] raises [TypeError] unless the value is an object. *)
Definition Station_new (station_json : json_station) : result Station :=
  match station_json with
  | JStationObject station_json => Station_init station_json
  | JStationOther => Raise TypeError
  end.

(** [Bike.__init__] *)
Definition Bike_init (bike_json : bike_json) (last_seen_at : Z) : Bike :=
  mkBike (bj_lat bike_json) (bj_lon bike_json) last_seen_at.

(** ** Methods of [Bike] *)

(** [Bike.away_from] *)
Definition away_from `{Libm} {B} `{HasCoords B} (self : Bike) (other : B) : result bool :=
  d ← distance self other;
  Ok (50 <? d)%float.

(** [Bike.has_moved] *)
Definition has_moved {B} `{HasCoords B} (self : Bike) (other : B) : bool :=
  negb (lat self =? lat other)%float || negb (lon self =? lon other)%float.

(** [i is not None] for the integer a bisection returns: always true. *)
Definition is_not_None (i : nat) : bool := true.

(** The dictionary [find_station] fills for the placeholder. *)
Definition flex_parking_json (self : Bike) : station_json :=
  {| sj_station_id := Some (IdInt 0);
     sj_name := Some "Flex parking";
     sj_lat := Some (b_lat self);
     sj_lon := Some (b_lon self) |}.

(** [Bike.find_station] *)
Definition find_station `{Libm} (self : Bike) (station_list : list Station)
    : result Station :=
  i1 ← bisect_left py_lt station_list self;
  i2 ← bisect_right py_lt station_list self;
  d1 ← (if is_not_None i1
        then s ← getitem station_list i1; distance s self
        else Ok infinity);
  d2 ← (if is_not_None i2
        then s ← getitem station_list i2; distance s self
        else Ok infinity);
  if (d1 <? d2)%float && (d1 <? 10)%float then getitem station_list i1
  else if (d2 <? 10)%float then getitem station_list i2
  else Station_init (flex_parking_json self).

(** ** [datetime]: the part of the standard library [new_trip] calls

    The calendar arithmetic follows the reference implementation of the
    standard library ([_ord2ymd] of the pure-Python [datetime]); the C
    implementation computes the same proleptic Gregorian date. *)

Local Open Scope Z_scope.

Definition _DI400Y : Z := 146097.
Definition _DI100Y : Z := 36524.
Definition _DI4Y : Z := 1461.

Definition MINYEAR : Z := 1.
Definition MAXYEAR : Z := 9999.

(** [_DAYS_IN_MONTH] and [_DAYS_BEFORE_MONTH], indexed from 1. *)
Definition _DAYS_IN_MONTH (month : Z) : Z :=
  match month with
  | 1 => 31 | 2 => 28 | 3 => 31 | 4 => 30 | 5 => 31 | 6 => 30
  | 7 => 31 | 8 => 31 | 9 => 30 | 10 => 31 | 11 => 30 | 12 => 31
  | _ => -1
  end.

Definition _DAYS_BEFORE_MONTH (month : Z) : Z :=
  match month with
  | 1 => 0 | 2 => 31 | 3 => 59 | 4 => 90 | 5 => 120 | 6 => 151
  | 7 => 181 | 8 => 212 | 9 => 243 | 10 => 273 | 11 => 304 | 12 => 334
  | _ => -1
  end.

(** Python's [int(b)] of a boolean. *)
Definition int_of_bool (b : bool) : Z := if b then 1 else 0.

(** [_ord2ymd]: ordinal (1 = 0001-01-01) to year, month and day. *)
Definition _ord2ymd (n : Z) : Z * Z * Z :=
  let n := n - 1 in
  let n400 := n / _DI400Y in
  let n := n mod _DI400Y in
  let year := n400 * 400 + 1 in
  let n100 := n / _DI100Y in
  let n := n mod _DI100Y in
  let n4 := n / _DI4Y in
  let n := n mod _DI4Y in
  let n1 := n / 365 in
  let n := n mod 365 in
  let year := year + (n100 * 100 + n4 * 4 + n1) in
  if (n1 =? 4) || (n100 =? 4) then (year - 1, 12, 31)
  else
    let leapyear := (n1 =? 3) && (negb (n4 =? 24) || (n100 =? 3)) in
    let month := Z.shiftr (n + 50) 5 in
    let preceding := _DAYS_BEFORE_MONTH month
                     + int_of_bool ((2 <? month) && leapyear) in
    if n <? preceding then
      let month := month - 1 in
      let preceding := preceding
                       - (_DAYS_IN_MONTH month
                          + int_of_bool ((month =? 2) && leapyear)) in
      (year, month, n - preceding + 1)
    else (year, month, n - preceding + 1).

(** The reference functions of the same module that give a date its
    ordinal; they state what [_ord2ymd] inverts. *)

(** [_is_leap] *)
Definition _is_leap (year : Z) : bool :=
  (year mod 4 =? 0) && (negb (year mod 100 =? 0) || (year mod 400 =? 0)).

(** [_days_before_year] *)
Definition _days_before_year (year : Z) : Z :=
  let y := year - 1 in
  y * 365 + y / 4 - y / 100 + y / 400.

(** [_days_in_month] *)
Definition _days_in_month (year month : Z) : Z :=
  if (month =? 2) && _is_leap year then 29 else _DAYS_IN_MONTH month.

(** [_days_before_month] *)
Definition _days_before_month (year month : Z) : Z :=
  _DAYS_BEFORE_MONTH month + int_of_bool ((2 <? month) && _is_leap year).

(** [_ymd2ord] *)
Definition _ymd2ord (year month day : Z) : Z :=
  _days_before_year year + _days_before_month year month + day.

(** The fields of an aware [datetime] in UTC with no microseconds. *)
Record datetime : Type := mkDatetime {
  dt_year : Z;
  dt_month : Z;
  dt_day : Z;
  dt_hour : Z;
  dt_minute : Z;
  dt_second : Z
}.

(** Ordinal of 1970-01-01. *)
Definition EPOCH_ORDINAL : Z := 719163.

(** [datetime.fromtimestamp(t, tz=timezone.utc)] for an integer [t].
    A year outside [MINYEAR..MAXYEAR] raises ([ValueError]; far enough
    out the platform reports [OverflowError] or [OSError] instead, which
    the model does not tell apart). *)
Definition fromtimestamp (t : Z) : result datetime :=
  let days := t / 86400 in
  let rem := t mod 86400 in
  let '(y, m, d) := _ord2ymd (days + EPOCH_ORDINAL) in
  if (MINYEAR <=? y) && (y <=? MAXYEAR)
  then Ok (mkDatetime y m d (rem / 3600) (rem mod 3600 / 60) (rem mod 60))
  else Raise ValueError.

(** The decimal digit [0..9] as a character. *)
Definition digit (n : Z) : ascii := ascii_of_nat (48 + Z.to_nat n).

(** The [w] low decimal digits of [n], most significant first. *)
Fixpoint low_digits (w : nat) (n : Z) : string :=
  match w with
  | O => EmptyString
  | S w' => low_digits w' (n / 10) +:+ String (digit (n mod 10)) EmptyString
  end.

(** Number of decimal digits of [n >= 0]. *)
Fixpoint count_digits (fuel : nat) (n : Z) : nat :=
  match fuel with
  | O => 1%nat
  | S fuel' => if n <? 10 then 1%nat else S (count_digits fuel' (n / 10))
  end.

(** ["%0wd" % n] for [n >= 0]: at least [w] digits, zero padded. *)
Definition format_0d (w : nat) (n : Z) : string :=
  low_digits (Nat.max w (count_digits (Z.to_nat (Z.log2 n)) n)) n.

(** [datetime.isoformat(sep=" ")] of an aware UTC datetime without
    microseconds: date, separator, time, offset. *)
Definition isoformat (dt : datetime) : string :=
  format_0d 4 (dt_year dt) +:+ "-" +:+ format_0d 2 (dt_month dt) +:+ "-"
  +:+ format_0d 2 (dt_day dt) +:+ " "
  +:+ format_0d 2 (dt_hour dt) +:+ ":" +:+ format_0d 2 (dt_minute dt) +:+ ":"
  +:+ format_0d 2 (dt_second dt) +:+ "+00:00".

(** ** [new_trip] *)

(** The dictionary [new_trip] returns, one field per key. *)
Record Trip : Type := mkTrip {
  started_at : string;
  ended_at : string;
  duration : Z;
  start_station_id : pyid;
  start_station_name : string;
  start_station_latitude : float;
  start_station_longitude : float;
  end_station_id : pyid;
  end_station_name : string;
  end_station_latitude : float;
  end_station_longitude : float
}.

Definition new_trip (start_station end_station : Station)
    (started_at ended_at : Z) : result Trip :=
  dt_start ← fromtimestamp started_at;
  dt_end ← fromtimestamp ended_at;
  Ok {| started_at := isoformat dt_start;
        ended_at := isoformat dt_end;
        duration := ended_at - started_at;
        start_station_id := s_id start_station;
        start_station_name := s_name start_station;
        start_station_latitude := s_lat start_station;
        start_station_longitude := s_lon start_station;
        end_station_id := s_id end_station;
        end_station_name := s_name end_station;
        end_station_latitude := s_lat end_station;
        end_station_longitude := s_lon end_station |}.

(** ** [list.sort]

    A stable sort that compares keys with [<] only. On keys that [<]
    orders totally the stable sorted arrangement is unique; insertion
    after the last element that is not greater computes it. *)
Section Sort.
Context {A K : Type} (key : A → K) (lt : K → K → bool).

Fixpoint insert_sorted (x : A) (l : list A) : list A :=
  match l with
  | [] => [x]
  | y :: l' => if lt (key x) (key y) then x :: y :: l' else y :: insert_sorted x l'
  end.

Definition list_sort (l : list A) : list A :=
  foldl (λ acc x, insert_sorted x acc) [] l.

(** Consecutive elements are in order: the later key is not below the
    earlier one. *)
Definition key_ordered (a b : A) : Prop := lt (key b) (key a) = false.
End Sort.

(** [self.stations.sort()], which compares with [Station.__lt__]. When
    no longitude is a NaN the comparisons are consistent and [list.sort]
    leaves the stable sorted arrangement, which [list_sort] computes.
    With a NaN they are not: the list is still rearranged, but into an
    order that depends on the implementation of [list.sort]. The model
    is parametric in this sort, with the two laws. *)
Class ListSort : Type := {
  stations_sort : list Station → list Station;
  stations_sort_perm : ∀ l, stations_sort l ≡ₚ l;
  stations_sort_consistent : ∀ l,
    Forall (λ s, is_nan (s_lon s) = false) l →
    stations_sort l = list_sort (λ s : Station, s) py_lt l
}.

(** [berlin_bikes.trips.sort(key=lambda k: k['started_at'])] *)
Definition sort_trips (trips : list Trip) : list Trip :=
  list_sort started_at String.ltb trips.

(** ** [BikeRegistry] *)

Record BikeRegistry : Type := mkBikeRegistry {
  city_name : string;
  free_bike_status_url : string;
  bikes : gmap string Bike;
  ttl : option Z;
  last_updated : option Z;
  trips : list Trip;
  stations : list Station
}.

(** The loop of [__init__]: [self.stations.append(Station(station_json))]. *)
Fixpoint load_stations (items : list json_station) (acc : list Station)
    : result (list Station) :=
  match items with
  | [] => Ok acc
  | station_json :: rest =>
      s ← Station_new station_json;
      load_stations rest (acc ++ [s])
  end.

(** [BikeRegistry.__init__]. The argument [station_info] stands for what
    [json.load(urlopen(station_info_url))] does. Only [IOError] and
    [JSONDecodeError] are caught (and turned into [sys.exit]); any other
    exception of the fetch, and the [KeyError] or [TypeError] of a
    subscript or of the loop, propagates. *)
Definition BikeRegistry_init `{S : ListSort} (city_name : string)
    (station_info : fetched station_information)
    (free_bike_status_url : string) : result BikeRegistry :=
  match station_info with
  | FetchIOError | FetchJSONDecodeError =>
      Raise (SystemExit "Could not load station info json, exiting...")
  | FetchRaises e => Raise e
  | Fetched doc =>
      data ← subscript_data doc;
      stations_json ← subscript_stations data;
      items ← iter_stations stations_json;
      loaded ← load_stations items [];
      Ok {| city_name := city_name;
            free_bike_status_url := free_bike_status_url;
            bikes := ∅;
            ttl := None;
            last_updated := None;
            trips := [];
            stations := stations_sort loaded |}
  end.

(** *** Methods that mutate the registry *)

(** A method body: it returns or raises, and leaves a registry. *)
Definition method (A : Type) : Type := BikeRegistry → result A * BikeRegistry.

#[export] Instance method_ret : MRet method := λ A a self, (Ok a, self).
#[export] Instance method_bind : MBind method := λ A B k m self,
  match m self with
  | (Ok a, self') => k a self'
  | (Raise e, self') => (Raise e, self')
  end.

(** Evaluate an expression that may raise. *)
Definition call {A} (r : result A) : method A := λ self, (r, self).

(** Read an attribute of [self]. *)
Definition gets {A} (attr : BikeRegistry → A) : method A :=
  λ self, (Ok (attr self), self).

(** [self.bikes[bike_id] = bike] *)
Definition set_bike (bike_id : string) (bike : Bike) : method unit := λ self,
  (Ok tt,
   {| city_name := city_name self;
      free_bike_status_url := free_bike_status_url self;
      bikes := <[bike_id := bike]> (bikes self);
      ttl := ttl self;
      last_updated := last_updated self;
      trips := trips self;
      stations := stations self |}).

(** [self.trips.append(trip)] *)
Definition append_trip (trip : Trip) : method unit := λ self,
  (Ok tt,
   {| city_name := city_name self;
      free_bike_status_url := free_bike_status_url self;
      bikes := bikes self;
      ttl := ttl self;
      last_updated := last_updated self;
      trips := trips self ++ [trip];
      stations := stations self |}).

(** [self.last_updated = ...; self.ttl = ...] *)
Definition set_last_updated_ttl (lu ttl' : Z) : method unit := λ self,
  (Ok tt,
   {| city_name := city_name self;
      free_bike_status_url := free_bike_status_url self;
      bikes := bikes self;
      ttl := Some ttl';
      last_updated := Some lu;
      trips := trips self;
      stations := stations self |}).

(** [for x in l: body(x)] *)
Fixpoint for_each {A} (body : A → method unit) (l : list A) : method unit :=
  match l with
  | [] => mret tt
  | x :: l' => body x;; for_each body l'
  end.

(** The body of the loop of [update], for one [bike_json]. [lu] is the
    value of [self.last_updated], assigned before the loop and constant
    during it. *)
Definition reconcile `{Libm} (lu : Z) (bike_json : bike_json) : method unit :=
  let bike_id := bj_bike_id bike_json in
  let cur_bike := Bike_init bike_json lu in
  registered ← gets bikes;
  match registered !! bike_id with
  | Some old_bike =>
      away ← call (away_from old_bike cur_bike);
      if away && (100 <? lu - b_last_seen old_bike) then
        station_list ← gets stations;
        start_station ← call (find_station old_bike station_list);
        end_station ← call (find_station cur_bike station_list);
        trip ← call (new_trip start_station end_station (b_last_seen old_bike) lu);
        append_trip trip;;
        set_bike bike_id cur_bike
      else
        set_bike bike_id (mkBike (b_lat old_bike) (b_lon old_bike) lu);;
        if has_moved old_bike cur_bike then set_bike bike_id cur_bike
        else mret tt
  | None =>
      if bj_is_disabled bike_json =? 0 then set_bike bike_id cur_bike
      else mret tt
  end.

(** [BikeRegistry.update]. The argument stands for what
    [json.load(urlopen(self.free_bike_status_url))] does; an exception
    other than the two that are caught propagates. *)
Definition update `{Libm} (free_bike_status_json : fetched free_bike_status)
    : method unit :=
  match free_bike_status_json with
  | FetchIOError | FetchJSONDecodeError => mret tt
  | FetchRaises e => λ self, (Raise e, self)
  | Fetched doc =>
      previous ← gets last_updated;
      if bool_decide (Some (fbs_last_updated doc) = previous) then mret tt
      else
        set_last_updated_ttl (fbs_last_updated doc) (fbs_ttl doc);;
        for_each (reconcile (fbs_last_updated doc)) (fbs_bikes doc)
  end.

(** ** A library instance to run the model with

    The statements below hold for every [Libm] and every [ListSort]. To
    evaluate the model on concrete inputs one instance of each is fixed.
    For [Libm]: squaring by the IEEE product with CPython's overflow
    check, and the cosine by its Taylor polynomial of degree 12, exact at
    0 and within 1e-7 on latitudes. *)

Definition sq_rounded (x : float) : result float :=
  let y := (x * x)%float in
  if is_finite x && is_infinity y then Raise OverflowError else Ok y.

Definition cos_taylor (x : float) : result float :=
  if is_infinity x then Raise ValueError
  else
    let y := (x * x)%float in
    Ok (1 - y / 2 * (1 - y / 12 * (1 - y / 30 * (1 - y / 56
           * (1 - y / 90 * (1 - y / 132))))))%float.

Definition reference_libm : Libm :=
  {| math_cos := cos_taylor; float_sq := sq_rounded |}.

(** And one sort, [list_sort] on every list. It is what [list.sort]
    leaves on the lists without a NaN longitude, the only ones it is run
    on below. *)
Definition reference_sort : ListSort.
Proof.
  refine {| stations_sort := list_sort (λ s : Station, s) py_lt |}.
  - intros l. unfold list_sort.
    assert (Hins : ∀ x acc, insert_sorted (λ s : Station, s) py_lt x acc
                            ≡ₚ x :: acc).
    { intros x acc. induction acc as [|y acc IH]; simpl; [done|].
      destruct (py_lt x y); [done|]. rewrite IH. apply Permutation_swap. }
    cut (∀ acc, foldl (λ acc x, insert_sorted (λ s : Station, s) py_lt x acc)
                  acc l ≡ₚ acc ++ l).
    { intros Hacc. apply Hacc. }
    induction l as [|x l IH]; intros acc; simpl.
    + by rewrite app_nil_r.
    + rewrite IH, Hins. simpl. apply Permutation_middle.
  - reflexivity.
Defined.

(** ** Vocabulary of the statements *)

(** The placeholder station the design calls flex parking. *)
Definition flex_parking (self : Bike) : Station :=
  mkStation (IdInt 0) "Flex parking" (b_lat self) (b_lon self).

Local Open Scope Z_scope.

(** A month of the year and a day of that month. *)
Definition valid_date (y m d : Z) : Prop :=
  1 ≤ m ≤ 12 ∧ 1 ≤ d ≤ _days_in_month y m.

(** Lexicographic combination of two comparisons. *)
Definition lexico (c1 c2 : comparison) : comparison :=
  match c1 with
  | Eq => c2
  | _ => c1
  end.

(** Field ranges of a datetime that [fromtimestamp] returns. *)
Definition datetime_fields_in_range (dt : datetime) : Prop :=
  0 ≤ dt_year dt < 10000 ∧ 0 ≤ dt_month dt < 100 ∧ 0 ≤ dt_day dt < 100
  ∧ 0 ≤ dt_hour dt < 100 ∧ 0 ≤ dt_minute dt < 100 ∧ 0 ≤ dt_second dt < 100.

(** [t] is the start epoch of a trip: the instant whose UTC datetime
    [new_trip] stored as [started_at]. *)
Definition started_at_epoch (trip : Trip) (t : Z) : Prop :=
  ∃ dt, fromtimestamp t = Ok dt ∧ started_at trip = isoformat dt.

Local Close Scope Z_scope.

(** A station entry with all four keys [Station.__init__] reads. *)
Definition station_json_complete (station_json : station_json) : Prop :=
  is_Some (sj_station_id station_json) ∧ is_Some (sj_name station_json)
  ∧ is_Some (sj_lat station_json) ∧ is_Some (sj_lon station_json).

#[export] Instance station_json_complete_dec (station_json : station_json) :
  Decision (station_json_complete station_json).
Proof. unfold station_json_complete. apply _. Defined.

(** A value of which [Station] makes a station: an object with the four
    keys. *)
Definition json_station_complete (station_json : json_station) : Prop :=
  match station_json with
  | JStationObject station_json => station_json_complete station_json
  | JStationOther => False
  end.

#[export] Instance json_station_complete_dec (station_json : json_station) :
  Decision (json_station_complete station_json).
Proof. destruct station_json; apply _. Defined.

(** The station list is missing: the source cannot be fetched or decoded,
    or the document has no [data.stations]. Or it is malformed: the
    document or its [data] is not an object, [data.stations] cannot be
    iterated, or the iteration gives an item that is not an object with
    the four keys. An empty list is neither. *)
Definition station_list_missing_or_malformed
    (station_info : fetched station_information) : Prop :=
  match station_info with
  | FetchIOError | FetchJSONDecodeError | FetchRaises _ => True
  | Fetched JDocumentOther | Fetched (JDocumentObject None) => True
  | Fetched (JDocumentObject (Some JDataOther))
  | Fetched (JDocumentObject (Some (JDataObject None))) => True
  | Fetched (JDocumentObject (Some (JDataObject (Some stations_json)))) =>
      match stations_json with
      | JStationsOther => True
      | JStationsStrings n => n ≠ 0
      | JStationsArray items =>
          Exists (λ station_json, ¬ json_station_complete station_json) items
      end
  end.

(** The document [{"data": {"stations": []}}]. *)
Definition station_information_empty : station_information :=
  JDocumentObject (Some (JDataObject (Some (JStationsArray [])))).

(** ** The main block: one turn of the polling loop

    [berlin_bikes.update()], then the test
    [berlin_bikes.last_updated + berlin_bikes.ttl > now]. Adding [None]
    raises [TypeError]; nothing but [KeyboardInterrupt] is caught, so an
    exception of [update] ends the turn as well. The turn returns the
    exception that ends it, if any. The clock and the sleeps change no
    attribute and are not modelled. *)

Definition main_turn `{Libm} (free_bike_status_json : fetched free_bike_status)
    (berlin_bikes : BikeRegistry) : option exn * BikeRegistry :=
  match update free_bike_status_json berlin_bikes with
  | (Raise e, berlin_bikes') => (Some e, berlin_bikes')
  | (Ok _, berlin_bikes') =>
      match last_updated berlin_bikes', ttl berlin_bikes' with
      | Some _, Some _ => (None, berlin_bikes')
      | _, _ => (Some TypeError, berlin_bikes')
      end
  end.

(** ** More vocabulary of the properties *)

(** The bike is registered and was last seen at [lu]. *)
Definition seen_at (lu : Z) (self : BikeRegistry) (bike_id : string) : Prop :=
  ∃ bike, bikes self !! bike_id = Some bike ∧ b_last_seen bike = lu.

(** The position of a float that is not a NaN in the order of binary64:
    class (infinities, signs, zero), then exponent, then mantissa. *)
Definition SFrank (f : spec_float) : option (Z * Z * Z) :=
  match f with
  | S754_nan => None
  | S754_infinity true => Some (-2, 0, 0)%Z
  | S754_infinity false => Some (2, 0, 0)%Z
  | S754_zero _ => Some (0, 0, 0)%Z
  | S754_finite true m e => Some (-1, - e, Z.neg m)%Z
  | S754_finite false m e => Some (1, e, Z.pos m)%Z
  end.

(** Lexicographic comparison of two ranks. *)
Definition rank_compare (r1 r2 : Z * Z * Z) : comparison :=
  lexico (r1.1.1 ?= r2.1.1)%Z (lexico (r1.1.2 ?= r2.1.2)%Z (r1.2 ?= r2.2)%Z).

(** A station list as [list.sort] leaves it: no station has a longitude
    below that of the station before it, and no longitude is a NaN. *)
Definition sorted_by_lon (station_list : list Station) : Prop :=
  Sorted (key_ordered (λ s : Station, s) py_lt) station_list
  ∧ Forall (λ s, is_nan (s_lon s) = false) station_list.

(** The keys [BikeRegistry.__init__] and [Station.__init__] subscript. *)
Definition station_information_keys : list string :=
  ["data"; "stations"; "station_id"; "name"; "lat"; "lon"].

(** ** Sample data

    The stations and sightings of the scenarios of the design document
    (all on the equator), used to run the model. *)

Set Warnings "-inexact-float".

Definition station_S1 : Station := mkStation (IdStr "S1") "S1" 0 0.
Definition station_S2 : Station := mkStation (IdStr "S2") "S2" 0 0.002.
Definition station_S3 : Station := mkStation (IdStr "S3") "S3" 0 0.1.

Definition sighting_origin : Bike := mkBike 0 0 1000.
Definition sighting_jitter : Bike := mkBike 0 0.00001 1000.
Definition sighting_at_S2 : Bike := mkBike 0 0.002 1200.
Definition sighting_east : Bike := mkBike 0 0.0025 1200.

(** A registry that tracks bike "a" at the origin since t = 1000. *)
Definition registry_scenario : BikeRegistry :=
  {| city_name := "Berlin";
     free_bike_status_url := "free_bike_status.json";
     bikes := {["a" := sighting_origin]};
     ttl := Some 60%Z;
     last_updated := Some 1000%Z;
     trips := [];
     stations := [station_S1; station_S2; station_S3] |}.

(** Bike "a" seen at S2; seen 33 metres from the origin; and a disabled
    bike "d" never seen before. *)
Definition observation_at_S2 : bike_json := mkBikeJson "a" 0 0.002 0.
Definition observation_nearby : bike_json := mkBikeJson "a" 0 0.0003 0.
Definition observation_disabled : bike_json := mkBikeJson "d" 0 0 1.

(** The trip of scenario 1 with its end point moved onto S2. *)
Definition trip_S1_S2 : Trip :=
  {| started_at := "1970-01-01 00:16:40+00:00";
     ended_at := "1970-01-01 00:20:00+00:00";
     duration := 200;
     start_station_id := IdStr "S1";
     start_station_name := "S1";
     start_station_latitude := 0;
     start_station_longitude := 0;
     end_station_id := IdStr "S2";
     end_station_name := "S2";
     end_station_latitude := 0;
     end_station_longitude := 0.002 |}.

(** A trip back from S2 to S1, started at t = 1200. *)
Definition trip_S2_S1 : Trip :=
  {| started_at := "1970-01-01 00:20:00+00:00";
     ended_at := "1970-01-01 00:25:00+00:00";
     duration := 300;
     start_station_id := IdStr "S2";
     start_station_name := "S2";
     start_station_latitude := 0;
     start_station_longitude := 0.002;
     end_station_id := IdStr "S1";
     end_station_name := "S1";
     end_station_latitude := 0;
     end_station_longitude := 0 |}.

(** Two polls: one repeating [last_updated = 1000], one going back to
    900 with a new enabled bike "b". *)
Definition payload_repeated : free_bike_status :=
  mkFreeBikeStatus 1000 30 [observation_at_S2].
Definition payload_regressed : free_bike_status :=
  mkFreeBikeStatus 900 30 [mkBikeJson "b" 0 0 0].

(** A station document that lists S2 before S1, the registry
    [__init__] makes of it, and a document whose only entry has no
    ["lat"]. *)
Definition station_information_S2_S1 : station_information :=
  JDocumentObject (Some (JDataObject (Some (JStationsArray
    [JStationObject
       (mkStationJson (Some (IdStr "S2")) (Some "S2") (Some 0%float) (Some 0.002%float));
     JStationObject
       (mkStationJson (Some (IdStr "S1")) (Some "S1") (Some 0%float) (Some 0%float))])))).

Definition registry_fresh : BikeRegistry :=
  {| city_name := "Berlin";
     free_bike_status_url := "free_bike_status.json";
     bikes := ∅;
     ttl := None;
     last_updated := None;
     trips := [];
     stations := [station_S1; station_S2] |}.

Definition station_information_no_lat : station_information :=
  JDocumentObject (Some (JDataObject (Some (JStationsArray
    [JStationObject
       (mkStationJson (Some (IdStr "S1")) (Some "S1") None (Some 0%float))])))).

(** A registry that tracks bike "a" at S2 since t = 1200, with the trip
    of scenario 1 in its log; and three polls: bike "a" back at S1 at
    t = 1500; bike "a" at S2 only 50 seconds after it was seen at the
    origin; and the disabled bike "d" alone. *)
Definition registry_logged : BikeRegistry :=
  {| city_name := "Berlin";
     free_bike_status_url := "free_bike_status.json";
     bikes := {["a" := sighting_at_S2]};
     ttl := Some 60%Z;
     last_updated := Some 1200%Z;
     trips := [trip_S1_S2];
     stations := [station_S1; station_S2; station_S3] |}.

Definition payload_return : free_bike_status :=
  mkFreeBikeStatus 1500 60 [mkBikeJson "a" 0 0 0].
Definition payload_soon : free_bike_status :=
  mkFreeBikeStatus 1050 30 [observation_at_S2].
Definition payload_disabled : free_bike_status :=
  mkFreeBikeStatus 1200 30 [observation_disabled].

(** A poll that reports bike "d" twice: disabled, then enabled. *)
Definition payload_disabled_enabled : free_bike_status :=
  mkFreeBikeStatus 1200 30 [observation_disabled; mkBikeJson "d" 0 0 0].

Set Warnings "+inexact-float".

(** * Properties *)

Local Close Scope Z_scope.

(** ** The monads *)

Lemma result_bind_ok {A B} (r : result A) (k : A → result B) (b : B) :
  r ≫= k = Ok b ↔ ∃ a, r = Ok a ∧ k a = Ok b.
Proof.
  destruct r as [a|e]; simpl; split.
  - intros Hk. exists a. done.
  - intros (a' & [= <-] & Hk). done.
  - done.
  - intros (a' & [=] & _).
Qed.

Lemma getitem_ok {A} (a : list A) (i : nat) (x : A) :
  getitem a i = Ok x ↔ a !! i = Some x.
Proof. unfold getitem. destruct (a !! i); split; congruence. Qed.

Lemma getitem_out_of_range {A} (a : list A) (i : nat) :
  length a ≤ i → getitem a i = Raise IndexError.
Proof. intros Hi. unfold getitem. by rewrite lookup_ge_None_2. Qed.

(** ** Bisection *)

(** Facts about the midpoint [(lo + hi) // 2] for [lia]. *)
Ltac midpoint lo hi :=
  pose proof (Nat.div_mod_eq (lo + hi) 2);
  pose proof (Nat.mod_upper_bound (lo + hi) 2).

Section BisectFacts.
Context {A X : Type} (lt_ax : A → X → bool) (lt_xa : X → A → bool).

(** The loop of [bisect_left] never indexes out of range; the element at
    the index it returns was probed and found not below [x], the element
    before it was probed and found below [x]. *)
Lemma bisect_left_loop_spec (a : list A) (x : X) (lo hi : nat) :
  lo ≤ hi → hi ≤ length a →
  ∃ i, bisect_left_loop lt_ax a x lo hi = Ok i ∧ lo ≤ i ∧ i ≤ hi
       ∧ (i < hi → ∃ am, a !! i = Some am ∧ lt_ax am x = false)
       ∧ (lo < i → ∃ am, a !! (i - 1) = Some am ∧ lt_ax am x = true).
Proof.
  funelim (bisect_left_loop lt_ax a x lo hi); intros Hlo Hhi; midpoint lo hi.
  - exists lo. repeat split; [done|lia|lia|lia].
  - (* the probe is in range *)
    match goal with E : a !! _ = None |- _ => apply lookup_ge_None_1 in E end. lia.
  - (* probe below x: continue to the right *)
    destruct H as (i & -> & Hge & Hle & Hr & Hl); [lia..|].
    exists i. repeat split; [lia|done|done|].
    intros _. destruct (decide (S ((lo + hi) `div` 2) = i)) as [<-|Hne].
    + exists am. split; [|done].
      by replace (S ((lo + hi) `div` 2) - 1) with ((lo + hi) `div` 2) by lia.
    + apply Hl. lia.
  - (* probe not below x: continue to the left *)
    destruct H as (i & -> & Hge & Hle & Hr & Hl); [lia..|].
    exists i. repeat split; [done|lia| |done].
    intros _. destruct (decide (i = (lo + hi) `div` 2)) as [->|Hne].
    + by exists am.
    + apply Hr. lia.
Qed.

(** Likewise for [bisect_right]: the element at the returned index was
    found above [x], the one before it was found not above [x]. *)
Lemma bisect_right_loop_spec (a : list A) (x : X) (lo hi : nat) :
  lo ≤ hi → hi ≤ length a →
  ∃ i, bisect_right_loop lt_xa a x lo hi = Ok i ∧ lo ≤ i ∧ i ≤ hi
       ∧ (i < hi → ∃ am, a !! i = Some am ∧ lt_xa x am = true)
       ∧ (lo < i → ∃ am, a !! (i - 1) = Some am ∧ lt_xa x am = false).
Proof.
  funelim (bisect_right_loop lt_xa a x lo hi); intros Hlo Hhi; midpoint lo hi.
  - exists lo. repeat split; [done|lia|lia|lia].
  - match goal with E : a !! _ = None |- _ => apply lookup_ge_None_1 in E end. lia.
  - destruct H as (i & -> & Hge & Hle & Hr & Hl); [lia..|].
    exists i. repeat split; [done|lia| |done].
    intros _. destruct (decide (i = (lo + hi) `div` 2)) as [->|Hne].
    + by exists am.
    + apply Hr. lia.
  - destruct H as (i & -> & Hge & Hle & Hr & Hl); [lia..|].
    exists i. repeat split; [lia|done|done|].
    intros _. destruct (decide (S ((lo + hi) `div` 2) = i)) as [<-|Hne].
    + exists am. split; [|done].
      by replace (S ((lo + hi) `div` 2) - 1) with ((lo + hi) `div` 2) by lia.
    + apply Hl. lia.
Qed.

(** [bisect_left] returns an index in [0..len]; a station at that index
    is not below [x]. *)
Lemma bisect_left_spec (a : list A) (x : X) :
  ∃ i, bisect_left lt_ax a x = Ok i ∧ i ≤ length a
       ∧ (∀ am, a !! i = Some am → lt_ax am x = false).
Proof.
  destruct (bisect_left_loop_spec a x 0 (length a)) as (i & Hi & _ & Hle & Hr & _);
    [lia..|].
  exists i. repeat split; [done..|].
  intros am Ham. destruct Hr as (am' & Ham' & Hlt).
  - by apply lookup_lt_Some in Ham.
  - congruence.
Qed.

Lemma bisect_right_spec (a : list A) (x : X) :
  ∃ i, bisect_right lt_xa a x = Ok i ∧ i ≤ length a
       ∧ (∀ am, a !! i = Some am → lt_xa x am = true).
Proof.
  destruct (bisect_right_loop_spec a x 0 (length a)) as (i & Hi & _ & Hle & Hr & _);
    [lia..|].
  exists i. repeat split; [done..|].
  intros am Ham. destruct Hr as (am' & Ham' & Hlt).
  - by apply lookup_lt_Some in Ham.
  - congruence.
Qed.

(** When every element is below [x], [bisect_left] returns the length. *)
Lemma bisect_left_all_below (a : list A) (x : X) :
  Forall (λ am, lt_ax am x = true) a → bisect_left lt_ax a x = Ok (length a).
Proof.
  intros Hall. destruct (bisect_left_spec a x) as (i & Hi & Hle & Hr).
  rewrite Hi. f_equal. destruct (decide (i = length a)) as [|Hne]; [done|].
  destruct (lookup_lt_is_Some_2 a i) as [am Ham]; [lia|].
  rewrite Forall_lookup in Hall. specialize (Hall _ _ Ham). specialize (Hr _ Ham).
  congruence.
Qed.

(** When no element is above [x], [bisect_right] returns the length. *)
Lemma bisect_right_none_above (a : list A) (x : X) :
  Forall (λ am, lt_xa x am = false) a → bisect_right lt_xa a x = Ok (length a).
Proof.
  intros Hall. destruct (bisect_right_spec a x) as (i & Hi & Hle & Hr).
  rewrite Hi. f_equal. destruct (decide (i = length a)) as [|Hne]; [done|].
  destruct (lookup_lt_is_Some_2 a i) as [am Ham]; [lia|].
  rewrite Forall_lookup in Hall. specialize (Hall _ _ Ham). specialize (Hr _ Ham).
  congruence.
Qed.
End BisectFacts.

(** ** Order of binary64 floats *)

Lemma SFcompare_antisym (f1 f2 : spec_float) :
  SFcompare f2 f1 = CompOpp <$> SFcompare f1 f2.
Proof.
  destruct f1 as [s1|s1| |s1 m1 e1], f2 as [s2|s2| |s2 m2 e2]; simpl;
    try done; try (by destruct s1); try (by destruct s2);
    try (by destruct s1, s2).
  f_equal. destruct s1, s2; simpl; try done.
  - rewrite (Z.compare_antisym e1 e2).
    destruct (e1 ?= e2)%Z; simpl; try done.
    by rewrite (Pos.compare_cont_antisym m1 m2 Eq).
  - rewrite (Z.compare_antisym e1 e2).
    destruct (e1 ?= e2)%Z; simpl; try done.
    rewrite (Pos.compare_cont_antisym m1 m2 Eq). simpl.
    by destruct (Pos.compare_cont Eq m1 m2).
Qed.

(** [<] on floats is asymmetric. *)
Lemma float_ltb_asym (x y : float) :
  (x <? y)%float = true → (y <? x)%float = false.
Proof.
  rewrite !ltb_spec. unfold SFltb. rewrite (SFcompare_antisym (Prim2SF x)).
  by destruct (SFcompare (Prim2SF x) (Prim2SF y)) as [[]|].
Qed.

(** ** [find_station] *)

Lemma Station_init_flex (self : Bike) :
  Station_init (flex_parking_json self) = Ok (flex_parking self).
Proof. reflexivity. Qed.

Section FindStation.
Context `{Libm}.

(** [find_station] once both bisections are known. *)
Lemma find_station_unfold (self : Bike) (station_list : list Station) :
  ∃ i1 i2,
    bisect_left py_lt station_list self = Ok i1
    ∧ bisect_right py_lt station_list self = Ok i2
    ∧ (∀ s, station_list !! i1 = Some s → py_lt s self = false)
    ∧ (∀ s, station_list !! i2 = Some s → py_lt self s = true)
    ∧ find_station self station_list =
        (d1 ← (s ← getitem station_list i1; distance s self);
         d2 ← (s ← getitem station_list i2; distance s self);
         if (d1 <? d2)%float && (d1 <? 10)%float then getitem station_list i1
         else if (d2 <? 10)%float then getitem station_list i2
         else Ok (flex_parking self)).
Proof.
  destruct (bisect_left_spec (py_lt (A:=Station) (B:=Bike)) station_list self)
    as (i1 & Hi1 & _ & Hl).
  destruct (bisect_right_spec (py_lt (A:=Bike) (B:=Station)) station_list self)
    as (i2 & Hi2 & _ & Hr).
  exists i1, i2. repeat split; [done..|].
  unfold find_station. rewrite Hi1, Hi2. reflexivity.
Qed.

(** C1 (the lookup never fails): refuted by the code. For a bike whose
    longitude is beyond the east end of the station list -- every station
    lies strictly west of it, which includes the empty list --
    [bisect_left] returns the length of the list and [station_list[i1]]
    raises [IndexError]; the guard [i1 is not None] never protects it. *)
Theorem find_station_east_of_all (self : Bike) (station_list : list Station) :
  Forall (λ s, py_lt s self = true) station_list →
  find_station self station_list = Raise IndexError.
Proof.
  intros Hall. unfold find_station.
  rewrite (bisect_left_all_below _ _ _ Hall).
  destruct (bisect_right_spec (py_lt (A:=Bike) (B:=Station)) station_list self)
    as (i2 & -> & _ & _).
  simpl. by rewrite getitem_out_of_range.
Qed.

(** A bike with no station strictly east of it: the lookup raises (at
    the second subscript, unless a distance raised before). *)
Lemma find_station_no_station_east (self : Bike) (station_list : list Station) :
  Forall (λ s, py_lt self s = false) station_list →
  ∃ e, find_station self station_list = Raise e.
Proof.
  intros Hall. unfold find_station.
  destruct (bisect_left_spec (py_lt (A:=Station) (B:=Bike)) station_list self)
    as (i1 & -> & _ & _).
  rewrite (bisect_right_none_above _ _ _ Hall). simpl.
  destruct (getitem station_list i1) as [s|e]; simpl; [|by eexists].
  destruct (distance s self) as [d1|e]; simpl; [|by eexists].
  rewrite getitem_out_of_range by done. by eexists.
Qed.

(** X1: both candidates sit at or to the right of the insertion position, so
    whatever [find_station] returns is the placeholder or a station that
    is not west of the bike: the left neighbour is never a candidate,
    however close it is. *)
Lemma find_station_never_west (self : Bike) (station_list : list Station) (s : Station) :
  find_station self station_list = Ok s →
  s = flex_parking self
  ∨ (∃ i, station_list !! i = Some s) ∧ py_lt s self = false.
Proof.
  destruct (find_station_unfold self station_list)
    as (i1 & i2 & _ & _ & Hl & Hr & ->).
  intros Hs.
  apply result_bind_ok in Hs as (d1 & Hd1 & Hs).
  apply result_bind_ok in Hs as (d2 & Hd2 & Hs).
  apply result_bind_ok in Hd1 as (s1 & Hs1 & Hd1).
  apply result_bind_ok in Hd2 as (s2 & Hs2 & Hd2).
  apply getitem_ok in Hs1, Hs2.
  destruct ((d1 <? d2)%float && (d1 <? 10)%float).
  - apply getitem_ok in Hs. right. split; [by eexists|]. by apply Hl.
  - destruct (d2 <? 10)%float.
    + apply getitem_ok in Hs. right. split; [by eexists|].
      (* the station at [i2] is east of the bike, hence not west of it *)
      specialize (Hr _ Hs). unfold py_lt in *.
      destruct (lon s <? lon self)%float eqn:Hw; [|done].
      apply float_ltb_asym in Hr. congruence.
    + left. congruence.
Qed.

(** X2: when both candidates exist, their distances are computed and neither
    is below 10 metres, the result is the placeholder at the position of
    the bike. *)
Lemma find_station_flex_when_far (self : Bike) (station_list : list Station)
    (i1 i2 : nat) (s1 s2 : Station) (d1 d2 : float) :
  bisect_left py_lt station_list self = Ok i1 →
  bisect_right py_lt station_list self = Ok i2 →
  station_list !! i1 = Some s1 → station_list !! i2 = Some s2 →
  distance s1 self = Ok d1 → distance s2 self = Ok d2 →
  (d1 <? 10)%float = false → (d2 <? 10)%float = false →
  find_station self station_list
  = Ok (mkStation (IdInt 0) "Flex parking" (b_lat self) (b_lon self)).
Proof.
  intros Hi1 Hi2 Hs1 Hs2 Hd1 Hd2 Hfar1 Hfar2. unfold find_station.
  rewrite Hi1, Hi2. simpl. apply getitem_ok in Hs1, Hs2.
  rewrite Hs1, Hs2. simpl. rewrite Hd1, Hd2. simpl.
  rewrite Hfar1, Hfar2. by rewrite andb_false_r.
Qed.
End FindStation.

(** On the empty station list the lookup raises for every bike. *)
Lemma find_station_empty `{Libm} (self : Bike) :
  find_station self [] = Raise IndexError.
Proof.
  unfold find_station, bisect_left, bisect_right. simpl length.
  simp bisect_left_loop bisect_right_loop. reflexivity.
Qed.

(** The end point of scenario 1 of the design document, east of both of
    its stations. *)
Lemma find_station_east_of_all_witness :
  Forall (λ s, py_lt s sighting_east = true) [station_S1; station_S2]
  ∧ find_station (H:=reference_libm) sighting_east [station_S1; station_S2]
    = Raise IndexError.
Proof.
  assert (Hwest : Forall (λ s, py_lt s sighting_east = true)
                    [station_S1; station_S2])
    by (repeat constructor).
  split; [exact Hwest|].
  exact (find_station_east_of_all (H:=reference_libm) sighting_east
           [station_S1; station_S2] Hwest).
Defined.

(** A bike parked at S2 is matched to S2, which is not west of it. *)
Lemma find_station_never_west_witness :
  find_station (H:=reference_libm) sighting_at_S2
    [station_S1; station_S2; station_S3] = Ok station_S2
  ∧ (station_S2 = flex_parking sighting_at_S2
     ∨ (∃ i, [station_S1; station_S2; station_S3] !! i = Some station_S2)
       ∧ py_lt station_S2 sighting_at_S2 = false).
Proof.
  assert (Hfound : find_station (H:=reference_libm) sighting_at_S2
            [station_S1; station_S2; station_S3] = Ok station_S2)
    by (vm_compute; reflexivity).
  split; [exact Hfound|].
  exact (find_station_never_west (H:=reference_libm) sighting_at_S2
           [station_S1; station_S2; station_S3] station_S2 Hfound).
Defined.

(** A bike 1.1 metres east of S1, with S3 as the only station east of
    it: both candidates are S3, 11 kilometres away. *)
Lemma find_station_flex_when_far_witness :
  bisect_left py_lt [station_S1; station_S3] sighting_jitter = Ok 1
  ∧ bisect_right py_lt [station_S1; station_S3] sighting_jitter = Ok 1
  ∧ find_station (H:=reference_libm) sighting_jitter [station_S1; station_S3]
    = Ok (mkStation (IdInt 0) "Flex parking" (b_lat sighting_jitter)
            (b_lon sighting_jitter)).
Proof.
  assert (Hi1 : bisect_left py_lt [station_S1; station_S3] sighting_jitter = Ok 1)
    by (vm_compute; reflexivity).
  assert (Hi2 : bisect_right py_lt [station_S1; station_S3] sighting_jitter = Ok 1)
    by (vm_compute; reflexivity).
  split; [exact Hi1|]. split; [exact Hi2|].
  eapply (find_station_flex_when_far (H:=reference_libm) sighting_jitter
            [station_S1; station_S3] 1 1 station_S3 station_S3 _ _ Hi1 Hi2);
    [reflexivity|reflexivity|vm_compute; reflexivity|vm_compute; reflexivity
    |vm_compute; reflexivity|vm_compute; reflexivity].
Defined.

(** C2 (both neighbours of the insertion position are evaluated and the
    closer one is returned when within 10 metres): refuted by the code.
    For a bike about a metre east of S1, with S3 the next station east,
    both bisections return the index of S3; the left neighbour S1, within
    10 metres, is not evaluated and the lookup answers with the
    placeholder. *)
Theorem find_station_misses_west_neighbour :
  (∃ d, distance (H:=reference_libm) station_S1 sighting_jitter = Ok d
        ∧ (d <? 10)%float = true)
  ∧ find_station (H:=reference_libm) sighting_jitter [station_S1; station_S3]
    = Ok (flex_parking sighting_jitter).
Proof.
  split.
  - eexists. split; [vm_compute; reflexivity|reflexivity].
  - vm_compute. reflexivity.
Qed.

(** C3 (no candidate within 10 metres gives the placeholder): refuted by
    the code through the defect of C1. At the end point of scenario 1
    every station is farther than 10 metres, no candidate is within
    reach, and the lookup raises instead of returning the placeholder. *)
Theorem find_station_far_but_raises :
  Forall (λ s, ∃ d, distance (H:=reference_libm) s sighting_east = Ok d
                    ∧ (d <? 10)%float = false)
    [station_S1; station_S2]
  ∧ find_station (H:=reference_libm) sighting_east [station_S1; station_S2]
    = Raise IndexError.
Proof.
  split.
  - repeat constructor; eexists; (split; [vm_compute; reflexivity|reflexivity]).
  - vm_compute. reflexivity.
Qed.

(** ** [BikeRegistry.update]: one observation *)

Section Reconcile.
Context `{Libm}.

(** The body of the loop for a bike that is not registered. *)
Lemma reconcile_untracked (lu : Z) (bike_json : bike_json) (self : BikeRegistry) :
  bikes self !! bj_bike_id bike_json = None →
  reconcile lu bike_json self =
    if (bj_is_disabled bike_json =? 0)%Z
    then set_bike (bj_bike_id bike_json) (Bike_init bike_json lu) self
    else (Ok tt, self).
Proof.
  intros Hnone. unfold reconcile, mbind, method_bind, gets. simpl.
  rewrite Hnone. by destruct (bj_is_disabled bike_json =? 0)%Z.
Qed.

(** The body of the loop for a registered bike, branch by branch. *)
Lemma reconcile_tracked (lu : Z) (bike_json : bike_json) (self : BikeRegistry)
    (old_bike : Bike) :
  bikes self !! bj_bike_id bike_json = Some old_bike →
  let bike_id := bj_bike_id bike_json in
  let cur_bike := Bike_init bike_json lu in
  reconcile lu bike_json self =
    match away_from old_bike cur_bike with
    | Raise e => (Raise e, self)
    | Ok away =>
        if away && (100 <? lu - b_last_seen old_bike)%Z then
          match find_station old_bike (stations self) with
          | Raise e => (Raise e, self)
          | Ok start_station =>
              match find_station cur_bike (stations self) with
              | Raise e => (Raise e, self)
              | Ok end_station =>
                  match new_trip start_station end_station
                          (b_last_seen old_bike) lu with
                  | Raise e => (Raise e, self)
                  | Ok trip =>
                      (Ok tt,
                       {| city_name := city_name self;
                          free_bike_status_url := free_bike_status_url self;
                          bikes := <[bike_id := cur_bike]> (bikes self);
                          ttl := ttl self;
                          last_updated := last_updated self;
                          trips := trips self ++ [trip];
                          stations := stations self |})
                  end
              end
          end
        else
          (Ok tt,
           {| city_name := city_name self;
              free_bike_status_url := free_bike_status_url self;
              bikes := <[bike_id :=
                          if has_moved old_bike cur_bike then cur_bike
                          else mkBike (b_lat old_bike) (b_lon old_bike) lu]>
                         (bikes self);
              ttl := ttl self;
              last_updated := last_updated self;
              trips := trips self;
              stations := stations self |})
    end.
Proof.
  intros Hold bike_id cur_bike.
  unfold reconcile, mbind, method_bind, gets, call. simpl.
  rewrite Hold. fold bike_id cur_bike.
  destruct (away_from old_bike cur_bike) as [away|e]; [|done].
  destruct (away && (100 <? lu - b_last_seen old_bike)%Z).
  - destruct (find_station old_bike (stations self)) as [start_station|e]; [|done].
    destruct (find_station cur_bike (stations self)) as [end_station|e]; [|done].
    by destruct (new_trip start_station end_station (b_last_seen old_bike) lu).
  - unfold set_bike. simpl.
    destruct (has_moved old_bike cur_bike); simpl; [|done].
    by rewrite insert_insert_eq.
Qed.

(** An observation leaves [last_updated], [ttl] and the station index
    alone, and touches no entry of the fleet but its own. *)
Lemma reconcile_frame (lu : Z) (bike_json : bike_json) (self : BikeRegistry) :
  let self' := (reconcile lu bike_json self).2 in
  last_updated self' = last_updated self
  ∧ ttl self' = ttl self
  ∧ stations self' = stations self
  ∧ ∀ bike_id, bike_id ≠ bj_bike_id bike_json →
      bikes self' !! bike_id = bikes self !! bike_id.
Proof.
  destruct (bikes self !! bj_bike_id bike_json) as [old_bike|] eqn:Hold.
  - rewrite (reconcile_tracked _ _ _ _ Hold).
    repeat case_match; simpl; repeat split; try done;
      intros bike_id Hne; by rewrite lookup_insert_ne.
  - rewrite (reconcile_untracked _ _ _ Hold).
    case_match; simpl; repeat split; try done.
    intros bike_id Hne. by rewrite lookup_insert_ne.
Qed.
End Reconcile.

Section ReconcileClaims.
Context `{Libm}.

Lemma away_from_ok (old_bike cur_bike : Bike) (away : bool) :
  away_from old_bike cur_bike = Ok away ↔
  ∃ d, distance old_bike cur_bike = Ok d ∧ away = (50 <? d)%float.
Proof.
  unfold away_from. rewrite result_bind_ok. split.
  - intros (d & Hd & [= <-]). by exists d.
  - intros (d & Hd & ->). by exists d.
Qed.

(** C4: for a registered bike, a trip is appended to the log only when
    the new sighting is more than 50 metres from the stored one and more
    than 100 seconds later; the trip is then [new_trip] of the station
    found for the stored position, the station found for the new
    position, the stored time and the new time, and the entry of the bike
    becomes the new sighting. When either threshold fails the log is left
    as it was. *)
Theorem reconcile_trip_thresholds (lu : Z) (bike_json : bike_json)
    (self : BikeRegistry) (old_bike : Bike) :
  bikes self !! bj_bike_id bike_json = Some old_bike →
  let cur_bike := Bike_init bike_json lu in
  let self' := (reconcile lu bike_json self).2 in
  (∀ trip, trips self' = trips self ++ [trip] →
     (∃ d, distance old_bike cur_bike = Ok d ∧ (50 <? d)%float = true)
     ∧ (lu - b_last_seen old_bike > 100)%Z
     ∧ (∃ start_station end_station,
          find_station old_bike (stations self) = Ok start_station
          ∧ find_station cur_bike (stations self) = Ok end_station
          ∧ new_trip start_station end_station (b_last_seen old_bike) lu
            = Ok trip)
     ∧ bikes self' = <[bj_bike_id bike_json := cur_bike]> (bikes self))
  ∧ ((∀ d, distance old_bike cur_bike = Ok d → (50 <? d)%float = false)
     ∨ (lu - b_last_seen old_bike ≤ 100)%Z →
     trips self' = trips self).
Proof.
  intros Hold cur_bike self'. subst self'.
  rewrite (reconcile_tracked _ _ _ _ Hold). fold cur_bike.
  assert (Hnot : ∀ trip, trips self ≠ trips self ++ [trip]).
  { intros trip Heq. apply (f_equal length) in Heq.
    rewrite length_app in Heq. simpl in Heq. lia. }
  destruct (away_from old_bike cur_bike) as [away|e] eqn:Haway; simpl.
  2: { split; [|done]. intros trip Heq. by apply Hnot in Heq. }
  apply away_from_ok in Haway as (d & Hd & ->).
  destruct ((50 <? d)%float && (100 <? lu - b_last_seen old_bike)%Z) eqn:Hcond.
  - apply andb_true_iff in Hcond as [Hfar Hlate]. apply Z.ltb_lt in Hlate.
    destruct (find_station old_bike (stations self)) as [start_station|e]; simpl.
    2: { split; [|done]. intros trip Heq. by apply Hnot in Heq. }
    destruct (find_station cur_bike (stations self)) as [end_station|e]; simpl.
    2: { split; [|done]. intros trip Heq. by apply Hnot in Heq. }
    destruct (new_trip start_station end_station (b_last_seen old_bike) lu)
      as [trip0|e] eqn:Htrip; simpl.
    2: { split; [|done]. intros trip Heq. by apply Hnot in Heq. }
    split.
    + intros trip Heq. apply app_inv_head in Heq as [= <-].
      repeat split; [by exists d|lia|by exists start_station, end_station].
    + intros [Hnear|Hsoon]; [|lia]. rewrite (Hnear d Hd) in Hfar. done.
  - simpl. split; [|done]. intros trip Heq. by apply Hnot in Heq.
Qed.

(** C5: when a registered bike gives no trip, its stored time becomes
    the time of the new sighting; its stored coordinates become those of
    the new sighting if [has_moved] says they differ and stay as they
    were otherwise. Nothing else changes. *)
Theorem reconcile_no_trip_refresh (lu : Z) (bike_json : bike_json)
    (self : BikeRegistry) (old_bike : Bike) (away : bool) :
  bikes self !! bj_bike_id bike_json = Some old_bike →
  away_from old_bike (Bike_init bike_json lu) = Ok away →
  away && (100 <? lu - b_last_seen old_bike)%Z = false →
  let cur_bike := Bike_init bike_json lu in
  let stored :=
    if has_moved old_bike cur_bike
    then mkBike (b_lat cur_bike) (b_lon cur_bike) lu
    else mkBike (b_lat old_bike) (b_lon old_bike) lu in
  reconcile lu bike_json self =
    (Ok tt,
     {| city_name := city_name self;
        free_bike_status_url := free_bike_status_url self;
        bikes := <[bj_bike_id bike_json := stored]> (bikes self);
        ttl := ttl self;
        last_updated := last_updated self;
        trips := trips self;
        stations := stations self |}).
Proof.
  intros Hold Haway Hcond cur_bike stored.
  rewrite (reconcile_tracked _ _ _ _ Hold), Haway, Hcond. reflexivity.
Qed.

(** An observation of a bike that is not registered and whose
    [is_disabled] is not 0 changes nothing: the bike is not inserted. *)
Lemma reconcile_disabled_unseen (lu : Z) (bike_json : bike_json)
    (self : BikeRegistry) :
  bikes self !! bj_bike_id bike_json = None →
  bj_is_disabled bike_json ≠ 0%Z →
  reconcile lu bike_json self = (Ok tt, self)
  ∧ bikes (reconcile lu bike_json self).2 !! bj_bike_id bike_json = None.
Proof.
  intros Hnone Hdisabled. rewrite (reconcile_untracked _ _ _ Hnone).
  apply Z.eqb_neq in Hdisabled. rewrite Hdisabled. done.
Qed.
End ReconcileClaims.

(** Scenario 1 with the end point on S2: a trip from S1 to S2 lasting
    200 seconds. *)
Lemma reconcile_trip_thresholds_witness :
  bikes registry_scenario !! bj_bike_id observation_at_S2 = Some sighting_origin
  ∧ trips (reconcile (H:=reference_libm) 1200 observation_at_S2
             registry_scenario).2
    = trips registry_scenario ++ [trip_S1_S2]
  ∧ (∃ d, distance (H:=reference_libm) sighting_origin
            (Bike_init observation_at_S2 1200) = Ok d
          ∧ (50 <? d)%float = true)
  ∧ (1200 - b_last_seen sighting_origin > 100)%Z
  ∧ (∃ start_station end_station,
       find_station (H:=reference_libm) sighting_origin
         (stations registry_scenario) = Ok start_station
       ∧ find_station (H:=reference_libm) (Bike_init observation_at_S2 1200)
           (stations registry_scenario) = Ok end_station
       ∧ new_trip start_station end_station (b_last_seen sighting_origin) 1200
         = Ok trip_S1_S2)
  ∧ bikes (reconcile (H:=reference_libm) 1200 observation_at_S2
             registry_scenario).2
    = <[bj_bike_id observation_at_S2 := Bike_init observation_at_S2 1200]>
        (bikes registry_scenario).
Proof.
  assert (Hold : bikes registry_scenario !! bj_bike_id observation_at_S2
                 = Some sighting_origin) by reflexivity.
  assert (Hemit : trips (reconcile (H:=reference_libm) 1200 observation_at_S2
                           registry_scenario).2
                  = trips registry_scenario ++ [trip_S1_S2])
    by (vm_compute; reflexivity).
  split; [exact Hold|]. split; [exact Hemit|].
  exact (proj1 (reconcile_trip_thresholds (H:=reference_libm) 1200
                  observation_at_S2 registry_scenario sighting_origin Hold)
           trip_S1_S2 Hemit).
Defined.

(** Scenario 2: 33 metres after 50 seconds is no trip; the stored
    position and time are those of the new sighting. *)
Lemma reconcile_no_trip_refresh_witness :
  bikes registry_scenario !! bj_bike_id observation_nearby = Some sighting_origin
  ∧ away_from (H:=reference_libm) sighting_origin
      (Bike_init observation_nearby 1050) = Ok false
  ∧ reconcile (H:=reference_libm) 1050 observation_nearby registry_scenario =
      (Ok tt,
       {| city_name := city_name registry_scenario;
          free_bike_status_url := free_bike_status_url registry_scenario;
          bikes := <[bj_bike_id observation_nearby :=
                       Bike_init observation_nearby 1050]>
                     (bikes registry_scenario);
          ttl := ttl registry_scenario;
          last_updated := last_updated registry_scenario;
          trips := trips registry_scenario;
          stations := stations registry_scenario |}).
Proof.
  assert (Hold : bikes registry_scenario !! bj_bike_id observation_nearby
                 = Some sighting_origin) by reflexivity.
  assert (Haway : away_from (H:=reference_libm) sighting_origin
                    (Bike_init observation_nearby 1050) = Ok false)
    by (vm_compute; reflexivity).
  split; [exact Hold|]. split; [exact Haway|].
  exact (reconcile_no_trip_refresh (H:=reference_libm) 1050 observation_nearby
           registry_scenario sighting_origin false Hold Haway eq_refl).
Defined.

(** Scenario 3: a disabled bike never seen before leaves no entry. *)
Lemma reconcile_disabled_unseen_witness :
  bikes registry_scenario !! bj_bike_id observation_disabled = None
  ∧ bj_is_disabled observation_disabled ≠ 0%Z
  ∧ reconcile (H:=reference_libm) 1200 observation_disabled registry_scenario
    = (Ok tt, registry_scenario)
  ∧ bikes (reconcile (H:=reference_libm) 1200 observation_disabled
             registry_scenario).2 !! bj_bike_id observation_disabled = None.
Proof.
  assert (Hnone : bikes registry_scenario !! bj_bike_id observation_disabled
                  = None) by reflexivity.
  assert (Hdisabled : bj_is_disabled observation_disabled ≠ 0%Z) by done.
  split; [exact Hnone|]. split; [exact Hdisabled|].
  exact (reconcile_disabled_unseen (H:=reference_libm) 1200 observation_disabled
           registry_scenario Hnone Hdisabled).
Defined.

(** ** [BikeRegistry.update]: a whole payload *)

Section Update.
Context `{Libm}.

Lemma for_each_cons {A} (body : A → method unit) (x : A) (l : list A)
    (self : BikeRegistry) :
  for_each body (x :: l) self =
    match body x self with
    | (Ok _, self') => for_each body l self'
    | (Raise e, self') => (Raise e, self')
    end.
Proof. reflexivity. Qed.

(** The loop leaves [last_updated], [ttl] and the stations alone, and
    every bike that the payload does not mention. *)
Lemma for_each_reconcile_frame (lu : Z) (bikes_json : list bike_json)
    (self : BikeRegistry) :
  let self' := (for_each (reconcile lu) bikes_json self).2 in
  last_updated self' = last_updated self
  ∧ ttl self' = ttl self
  ∧ stations self' = stations self
  ∧ ∀ bike_id, Forall (λ bike_json, bj_bike_id bike_json ≠ bike_id) bikes_json →
      bikes self' !! bike_id = bikes self !! bike_id.
Proof.
  revert self. induction bikes_json as [|bike_json rest IH]; intros self.
  { simpl. done. }
  rewrite for_each_cons.
  destruct (reconcile_frame lu bike_json self) as (Hlu & Httl & Hst & Hbikes).
  destruct (reconcile lu bike_json self) as [[[]|e] self1]; simpl in *.
  - destruct (IH self1) as (Hlu' & Httl' & Hst' & Hbikes').
    repeat split; [congruence..|].
    intros bike_id Hall. apply Forall_cons in Hall as [Hne Hall].
    rewrite Hbikes' by done. by apply Hbikes.
  - repeat split; [done..|].
    intros bike_id Hall. apply Forall_cons in Hall as [Hne Hall]. by apply Hbikes.
Qed.

(** A bike that is not registered and that the payload only ever reports
    as disabled is still not registered after the loop. *)
Lemma for_each_reconcile_disabled (lu : Z) (bikes_json : list bike_json)
    (self : BikeRegistry) (bike_id : string) :
  bikes self !! bike_id = None →
  Forall (λ bike_json, bj_bike_id bike_json = bike_id →
                       bj_is_disabled bike_json ≠ 0%Z) bikes_json →
  bikes (for_each (reconcile lu) bikes_json self).2 !! bike_id = None.
Proof.
  revert self. induction bikes_json as [|bike_json rest IH]; intros self Hnone Hall.
  { done. }
  apply Forall_cons in Hall as [Hthis Hall]. rewrite for_each_cons.
  assert (Hstep : bikes (reconcile lu bike_json self).2 !! bike_id = None).
  { destruct (decide (bj_bike_id bike_json = bike_id)) as [Heq|Hne].
    - subst bike_id. rewrite (reconcile_untracked _ _ _ Hnone).
      specialize (Hthis eq_refl). apply Z.eqb_neq in Hthis. by rewrite Hthis.
    - destruct (reconcile_frame lu bike_json self) as (_ & _ & _ & Hbikes).
      rewrite Hbikes by done. done. }
  destruct (reconcile lu bike_json self) as [[[]|e] self1]; simpl in *.
  - by apply IH.
  - done.
Qed.

(** [update] on a payload whose [last_updated] differs from the stored
    one: both attributes are overwritten, then the loop runs. *)
Lemma update_fresh (doc : free_bike_status) (self : BikeRegistry) :
  last_updated self ≠ Some (fbs_last_updated doc) →
  update (Fetched doc) self =
    for_each (reconcile (fbs_last_updated doc)) (fbs_bikes doc)
      {| city_name := city_name self;
         free_bike_status_url := free_bike_status_url self;
         bikes := bikes self;
         ttl := Some (fbs_ttl doc);
         last_updated := Some (fbs_last_updated doc);
         trips := trips self;
         stations := stations self |}.
Proof.
  intros Hfresh. unfold update, mbind, method_bind, gets. simpl.
  rewrite bool_decide_eq_false_2 by congruence. reflexivity.
Qed.

(** C6: a payload whose [last_updated] equals the stored one is skipped:
    [update] returns and the registry -- fleet, trip log, [ttl] and
    [last_updated] -- is the one it started from. *)
Theorem update_repeated_is_skipped (doc : free_bike_status) (self : BikeRegistry) :
  last_updated self = Some (fbs_last_updated doc) →
  update (Fetched doc) self = (Ok tt, self).
Proof.
  intros Hsame. unfold update, mbind, method_bind, gets. simpl.
  by rewrite bool_decide_eq_true_2.
Qed.

(** C7, as the code has it: a payload whose [last_updated] is below the
    stored one is not rejected. The stored [last_updated] and [ttl] are
    overwritten with the payload's, every observation is reconciled, and
    the new values are still in place when [update] finishes. *)
Theorem update_regressed_is_processed (doc : free_bike_status)
    (self : BikeRegistry) (previous : Z) :
  last_updated self = Some previous →
  (fbs_last_updated doc < previous)%Z →
  update (Fetched doc) self =
    for_each (reconcile (fbs_last_updated doc)) (fbs_bikes doc)
      {| city_name := city_name self;
         free_bike_status_url := free_bike_status_url self;
         bikes := bikes self;
         ttl := Some (fbs_ttl doc);
         last_updated := Some (fbs_last_updated doc);
         trips := trips self;
         stations := stations self |}
  ∧ last_updated (update (Fetched doc) self).2 = Some (fbs_last_updated doc)
  ∧ ttl (update (Fetched doc) self).2 = Some (fbs_ttl doc).
Proof.
  intros Hprev Hlt.
  assert (Hfresh : last_updated self ≠ Some (fbs_last_updated doc)).
  { rewrite Hprev. intros [= ->]. lia. }
  rewrite (update_fresh _ _ Hfresh). split; [done|].
  match goal with |- context [for_each ?body ?l ?s] =>
    destruct (for_each_reconcile_frame (fbs_last_updated doc) l s)
      as (Hlu & Httl & _)
  end.
  by rewrite Hlu, Httl.
Qed.

(** A failed fetch leaves the registry alone. *)
Lemma update_fetch_failed (self : BikeRegistry) :
  update FetchIOError self = (Ok tt, self)
  ∧ update FetchJSONDecodeError self = (Ok tt, self).
Proof. done. Qed.

(** X3: at the level of a payload: a bike that is not registered and that
    the payload reports only as disabled is not registered afterwards. *)
Lemma update_disabled_unseen (doc : free_bike_status) (self : BikeRegistry)
    (bike_id : string) :
  bikes self !! bike_id = None →
  Forall (λ bike_json, bj_bike_id bike_json = bike_id →
                       bj_is_disabled bike_json ≠ 0%Z) (fbs_bikes doc) →
  bikes (update (Fetched doc) self).2 !! bike_id = None.
Proof.
  intros Hnone Hall.
  destruct (decide (last_updated self = Some (fbs_last_updated doc))) as [Heq|Hne].
  - unfold update, mbind, method_bind, gets. simpl.
    by rewrite bool_decide_eq_true_2.
  - rewrite (update_fresh _ _ Hne). by apply for_each_reconcile_disabled.
Qed.

(** C10, as the code has it: an observation of a bike that is not
    registered, with [is_disabled] not 0, inserts nothing: reconciling
    it leaves the registry as it is. The reconciliation of the payload
    leaves the fleet without an entry for the bike provided every
    observation of the payload with that id has [is_disabled] not 0:
    another observation of the same payload may report the bike
    enabled, and registers it. *)
Theorem disabled_unseen_not_inserted (doc : free_bike_status)
    (self : BikeRegistry) (bike_json : bike_json) :
  bike_json ∈ fbs_bikes doc →
  bj_is_disabled bike_json ≠ 0%Z →
  bikes self !! bj_bike_id bike_json = None →
  (∀ s, bikes s !! bj_bike_id bike_json = None →
        reconcile (fbs_last_updated doc) bike_json s = (Ok tt, s))
  ∧ (Forall (λ other, bj_bike_id other = bj_bike_id bike_json →
                      bj_is_disabled other ≠ 0%Z) (fbs_bikes doc) →
     bikes (update (Fetched doc) self).2 !! bj_bike_id bike_json = None).
Proof.
  intros _ Hdisabled Hnone. split.
  - intros s Hs. rewrite (reconcile_untracked _ _ _ Hs).
    apply Z.eqb_neq in Hdisabled. by rewrite Hdisabled.
  - intros Hall.
    destruct (decide (last_updated self = Some (fbs_last_updated doc)))
      as [Heq|Hne].
    + unfold update, mbind, method_bind, gets. simpl.
      by rewrite bool_decide_eq_true_2.
    + rewrite (update_fresh _ _ Hne). by apply for_each_reconcile_disabled.
Qed.
End Update.

(** Scenario 3 as a payload: the disabled bike "d", never seen before,
    is reported once. *)
Lemma disabled_unseen_not_inserted_witness :
  observation_disabled ∈ fbs_bikes payload_disabled
  ∧ bj_is_disabled observation_disabled ≠ 0%Z
  ∧ bikes registry_scenario !! bj_bike_id observation_disabled = None
  ∧ (∀ s, bikes s !! bj_bike_id observation_disabled = None →
          reconcile (H:=reference_libm) (fbs_last_updated payload_disabled)
            observation_disabled s = (Ok tt, s))
  ∧ (Forall (λ other, bj_bike_id other = bj_bike_id observation_disabled →
                      bj_is_disabled other ≠ 0%Z) (fbs_bikes payload_disabled) →
     bikes (update (H:=reference_libm) (Fetched payload_disabled)
              registry_scenario).2 !! bj_bike_id observation_disabled = None).
Proof.
  assert (Hin : observation_disabled ∈ fbs_bikes payload_disabled)
    by apply list_elem_of_here.
  assert (Hdisabled : bj_is_disabled observation_disabled ≠ 0%Z) by done.
  assert (Hnone : bikes registry_scenario !! bj_bike_id observation_disabled
                  = None) by reflexivity.
  split; [exact Hin|]. split; [exact Hdisabled|]. split; [exact Hnone|].
  exact (disabled_unseen_not_inserted (H:=reference_libm) payload_disabled
           registry_scenario observation_disabled Hin Hdisabled Hnone).
Defined.

(** C10 as stated fails: bike "d" is not registered and the payload
    reports it with [is_disabled = 1], but a second observation of the
    same payload reports it enabled; after the payload "d" is
    registered. *)
Lemma disabled_then_enabled_counterexample :
  bikes registry_scenario !! "d" = None
  ∧ observation_disabled ∈ fbs_bikes payload_disabled_enabled
  ∧ bj_bike_id observation_disabled = "d"
  ∧ bj_is_disabled observation_disabled = 1%Z
  ∧ bikes (update (H:=reference_libm) (Fetched payload_disabled_enabled)
             registry_scenario).2 !! "d" = Some (mkBike 0 0 1200).
Proof.
  split; [reflexivity|]. split; [apply list_elem_of_here|].
  split; [reflexivity|]. split; [reflexivity|]. vm_compute. reflexivity.
Qed.

(** A whole payload that reports bike "d" as disabled. *)
Lemma update_disabled_unseen_witness :
  bikes registry_scenario !! "d" = None
  ∧ Forall (λ bike_json, bj_bike_id bike_json = "d" →
                         bj_is_disabled bike_json ≠ 0%Z)
      (fbs_bikes payload_disabled)
  ∧ bikes (update (H:=reference_libm) (Fetched payload_disabled)
             registry_scenario).2 !! "d" = None.
Proof.
  assert (Hnone : bikes registry_scenario !! "d" = None) by reflexivity.
  assert (Hall : Forall (λ bike_json, bj_bike_id bike_json = "d" →
                                      bj_is_disabled bike_json ≠ 0%Z)
                   (fbs_bikes payload_disabled))
    by (repeat constructor; done).
  split; [exact Hnone|]. split; [exact Hall|].
  exact (update_disabled_unseen (H:=reference_libm) payload_disabled
           registry_scenario "d" Hnone Hall).
Defined.

(** The repeated poll of scenario 5. *)
Lemma update_repeated_is_skipped_witness :
  last_updated registry_scenario = Some (fbs_last_updated payload_repeated)
  ∧ update (H:=reference_libm) (Fetched payload_repeated) registry_scenario
    = (Ok tt, registry_scenario).
Proof.
  assert (Hsame : last_updated registry_scenario
                  = Some (fbs_last_updated payload_repeated)) by reflexivity.
  split; [exact Hsame|].
  exact (update_repeated_is_skipped (H:=reference_libm) payload_repeated
           registry_scenario Hsame).
Defined.

(** C7 as stated fails: after [last_updated = 1000], a payload with
    [last_updated = 900] overwrites [last_updated] and [ttl] and
    registers its bike. *)
Lemma update_regressed_counterexample :
  last_updated registry_scenario = Some 1000%Z
  ∧ (fbs_last_updated payload_regressed < 1000)%Z
  ∧ update (H:=reference_libm) (Fetched payload_regressed) registry_scenario =
      (Ok tt,
       {| city_name := "Berlin";
          free_bike_status_url := "free_bike_status.json";
          bikes := <["b" := mkBike 0 0 900]> {["a" := sighting_origin]};
          ttl := Some 30%Z;
          last_updated := Some 900%Z;
          trips := [];
          stations := [station_S1; station_S2; station_S3] |}).
Proof.
  split; [reflexivity|]. split; [reflexivity|]. vm_compute. reflexivity.
Qed.

Lemma update_regressed_is_processed_witness :
  last_updated registry_scenario = Some 1000%Z
  ∧ (fbs_last_updated payload_regressed < 1000)%Z
  ∧ last_updated (update (H:=reference_libm) (Fetched payload_regressed)
                    registry_scenario).2 = Some 900%Z
  ∧ ttl (update (H:=reference_libm) (Fetched payload_regressed)
           registry_scenario).2 = Some 30%Z.
Proof.
  assert (Hprev : last_updated registry_scenario = Some 1000%Z) by reflexivity.
  assert (Hlt : (fbs_last_updated payload_regressed < 1000)%Z) by reflexivity.
  split; [exact Hprev|]. split; [exact Hlt|].
  exact (proj2 (update_regressed_is_processed (H:=reference_libm)
                  payload_regressed registry_scenario 1000 Hprev Hlt)).
Defined.

(** ** [BikeRegistry.__init__] *)

Lemma Station_init_complete (station_json : station_json) :
  station_json_complete station_json →
  ∃ s, Station_init station_json = Ok s.
Proof.
  destruct station_json as [id name lat lon].
  intros ([? Hid] & [? Hname] & [? Hlat] & [? Hlon]). simpl in *. subst.
  by eexists.
Qed.

Lemma Station_init_incomplete (station_json : station_json) :
  ¬ station_json_complete station_json →
  ∃ key, Station_init station_json = Raise (KeyError key).
Proof.
  destruct station_json as [[id|] [name|] [lat|] [lon|]]; intros Hnot;
    try (by eexists).
  exfalso. apply Hnot. repeat split; by eexists.
Qed.

Lemma Station_new_complete (station_json : json_station) :
  json_station_complete station_json →
  ∃ s, Station_new station_json = Ok s.
Proof.
  destruct station_json as [station_json|]; [|done].
  apply Station_init_complete.
Qed.

Lemma Station_new_incomplete (station_json : json_station) :
  ¬ json_station_complete station_json →
  ∃ e, Station_new station_json = Raise e.
Proof.
  destruct station_json as [station_json|]; simpl; [|by eexists].
  intros Hnot. destruct (Station_init_incomplete _ Hnot) as [key Hkey].
  by eexists.
Qed.

Lemma load_stations_complete (items : list json_station) (acc : list Station) :
  Forall json_station_complete items →
  ∃ loaded, load_stations items acc = Ok (acc ++ loaded)
            ∧ length loaded = length items.
Proof.
  revert acc. induction items as [|station_json rest IH]; intros acc Hall.
  { exists []. by rewrite app_nil_r. }
  apply Forall_cons in Hall as [Hthis Hall].
  destruct (Station_new_complete _ Hthis) as [s Hs].
  destruct (IH (acc ++ [s]) Hall) as (loaded & Hloaded & Hlen).
  exists (s :: loaded). simpl. rewrite Hs. simpl. rewrite Hloaded.
  split; [by rewrite <- app_assoc|]. simpl. by rewrite Hlen.
Qed.

Lemma load_stations_incomplete (items : list json_station) (acc : list Station) :
  Exists (λ station_json, ¬ json_station_complete station_json) items →
  ∃ e, load_stations items acc = Raise e.
Proof.
  revert acc. induction items as [|station_json rest IH]; intros acc Hex.
  { by apply Exists_nil in Hex. }
  destruct (decide (json_station_complete station_json)) as [Hthis|Hthis].
  - apply Exists_cons in Hex as [Hbad|Hex]; [done|].
    destruct (Station_new_complete _ Hthis) as [s Hs].
    destruct (IH (acc ++ [s]) Hex) as [e He].
    exists e. simpl. rewrite Hs. simpl. done.
  - destruct (Station_new_incomplete _ Hthis) as [e He].
    exists e. simpl. by rewrite He.
Qed.

(** What [__init__] has done when it returns. *)
Lemma BikeRegistry_init_returns `{S : ListSort} (city : string)
    (station_info : fetched station_information) (url : string)
    (self : BikeRegistry) :
  BikeRegistry_init city station_info url = Ok self →
  ∃ stations_json items loaded,
    station_info
    = Fetched (JDocumentObject (Some (JDataObject (Some stations_json))))
    ∧ iter_stations stations_json = Ok items
    ∧ load_stations items [] = Ok loaded
    ∧ self = {| city_name := city;
                free_bike_status_url := url;
                bikes := ∅;
                ttl := None;
                last_updated := None;
                trips := [];
                stations := stations_sort loaded |}.
Proof.
  destruct station_info as [| |e|[[[[stations_json|]|]|]|]]; simpl; try done.
  destruct (iter_stations stations_json) as [items|e] eqn:Hiter; simpl; [|done].
  destruct (load_stations items []) as [loaded|e] eqn:Hload; simpl; [|done].
  intros [= <-]. by exists stations_json, items, loaded.
Qed.

(** Every sort leaves the empty list empty. *)
Lemma stations_sort_nil `{S : ListSort} : stations_sort [] = [].
Proof. apply Permutation_nil_r, stations_sort_perm. Qed.

(** C8, as the code has it: construction fails whenever the station list
    is missing or malformed. An empty station list is not a failure:
    construction then succeeds with an empty station index. *)
Theorem BikeRegistry_init_fails_when `{S : ListSort} (city : string)
    (station_info : fetched station_information) (url : string) :
  (station_list_missing_or_malformed station_info →
   ∃ e, BikeRegistry_init city station_info url = Raise e)
  ∧ BikeRegistry_init city (Fetched station_information_empty) url =
      Ok {| city_name := city;
            free_bike_status_url := url;
            bikes := ∅;
            ttl := None;
            last_updated := None;
            trips := [];
            stations := [] |}.
Proof.
  split; [|by simpl; rewrite stations_sort_nil].
  destruct station_info as [| |e|[[[[[items|n|]|]|]|]|]]; simpl;
    try (by intros _; eexists).
  - intros Hbad.
    destruct (load_stations_incomplete items [] Hbad) as [e ->]. by eexists.
  - intros Hn. destruct n as [|n]; [done|]. by eexists.
Qed.

(** A document whose only entry has no ["lat"]. *)
Lemma BikeRegistry_init_fails_when_witness :
  station_list_missing_or_malformed (Fetched station_information_no_lat)
  ∧ ∃ e, BikeRegistry_init (S:=reference_sort) "Berlin"
           (Fetched station_information_no_lat) "free_bike_status.json"
         = Raise e.
Proof.
  assert (Hbad : station_list_missing_or_malformed
                   (Fetched station_information_no_lat)).
  { apply Exists_cons_hd. intros (_ & _ & [lat [=]] & _). }
  split; [exact Hbad|].
  exact (proj1 (BikeRegistry_init_fails_when (S:=reference_sort) "Berlin"
                  (Fetched station_information_no_lat) "free_bike_status.json")
           Hbad).
Defined.

(** C8 as stated fails: the empty station list gives a registry. *)
Lemma BikeRegistry_init_empty_counterexample :
  BikeRegistry_init (S:=reference_sort) "Berlin"
    (Fetched station_information_empty) "free_bike_status.json" =
    Ok {| city_name := "Berlin";
          free_bike_status_url := "free_bike_status.json";
          bikes := ∅;
          ttl := None;
          last_updated := None;
          trips := [];
          stations := [] |}.
Proof. reflexivity. Qed.

(** Runs of [__init__] on fetches and documents that are not as the
    schema has them: an exception of the fetch that is not caught; a
    document that is an array; an object without ["data"]; [null], a
    string of two characters and the empty string in the place of the
    station list; a number after a station entry. *)
Lemma BikeRegistry_init_runs :
  BikeRegistry_init (S:=reference_sort) "Berlin" (FetchRaises UnicodeDecodeError)
    "free_bike_status.json" = Raise UnicodeDecodeError
  ∧ BikeRegistry_init (S:=reference_sort) "Berlin" (Fetched JDocumentOther)
      "free_bike_status.json" = Raise TypeError
  ∧ BikeRegistry_init (S:=reference_sort) "Berlin" (Fetched (JDocumentObject None))
      "free_bike_status.json" = Raise (KeyError "data")
  ∧ BikeRegistry_init (S:=reference_sort) "Berlin"
      (Fetched (JDocumentObject (Some (JDataObject (Some JStationsOther)))))
      "free_bike_status.json" = Raise TypeError
  ∧ BikeRegistry_init (S:=reference_sort) "Berlin"
      (Fetched (JDocumentObject (Some (JDataObject (Some (JStationsStrings 2))))))
      "free_bike_status.json" = Raise TypeError
  ∧ BikeRegistry_init (S:=reference_sort) "Berlin"
      (Fetched (JDocumentObject (Some (JDataObject (Some (JStationsStrings 0))))))
      "free_bike_status.json"
    = BikeRegistry_init (S:=reference_sort) "Berlin"
        (Fetched station_information_empty) "free_bike_status.json"
  ∧ BikeRegistry_init (S:=reference_sort) "Berlin"
      (Fetched (JDocumentObject (Some (JDataObject (Some (JStationsArray
         [JStationObject
            (mkStationJson (Some (IdStr "S1")) (Some "S1") (Some 0%float)
               (Some 0%float));
          JStationOther]))))))
      "free_bike_status.json" = Raise TypeError.
Proof. repeat split. Qed.

(** ** The calendar of [datetime] *)

Local Open Scope Z_scope.

(** Case analysis on a month [m] known to lie in [1..12]. *)
Ltac each_month m :=
  let Hcases := fresh "Hcases" in
  assert (Hcases : m = 1 ∨ m = 2 ∨ m = 3 ∨ m = 4 ∨ m = 5 ∨ m = 6 ∨ m = 7
                   ∨ m = 8 ∨ m = 9 ∨ m = 10 ∨ m = 11 ∨ m = 12) by lia;
  repeat (destruct Hcases as [->|Hcases]); try subst m.

(** [_is_leap] and [_days_before_year] of a year written in the radix
    of [_ord2ymd]: 400-, 100-, 4- and 1-year cycles. *)
Lemma is_leap_decomposed (a b c e : Z) :
  0 ≤ b ≤ 3 → 0 ≤ c ≤ 24 → 0 ≤ e ≤ 3 →
  _is_leap (a * 400 + 1 + (b * 100 + c * 4 + e))
  = (e =? 3) && (negb (c =? 24) || (b =? 3)).
Proof.
  intros Hb Hc He. unfold _is_leap.
  repeat match goal with
  | |- context [?x =? ?y] => destruct (Z.eqb_spec x y)
  end; simpl; try reflexivity; exfalso; Z.div_mod_to_equations; lia.
Qed.

Lemma days_before_year_decomposed (a b c e : Z) :
  0 ≤ b ≤ 3 → 0 ≤ c ≤ 24 → 0 ≤ e ≤ 3 →
  _days_before_year (a * 400 + 1 + (b * 100 + c * 4 + e))
  = a * 146097 + b * 36524 + c * 1461 + e * 365.
Proof.
  intros Hb Hc He. unfold _days_before_year. Z.div_mod_to_equations. lia.
Qed.

(** Day [r] (from 0) of a year to month and day, as the tail of [_ord2ymd]. *)
Lemma month_day_of_year (year r : Z) (leapyear : bool) :
  0 ≤ r < 365 + int_of_bool leapyear →
  _is_leap year = leapyear →
  let month := Z.shiftr (r + 50) 5 in
  let preceding := _DAYS_BEFORE_MONTH month + int_of_bool ((2 <? month) && leapyear) in
  let '(m, d) :=
    if r <? preceding then
      (month - 1,
       r - (preceding - (_DAYS_IN_MONTH (month - 1)
                         + int_of_bool ((month - 1 =? 2) && leapyear))) + 1)
    else (month, r - preceding + 1) in
  valid_date year m d ∧ _days_before_month year m + d = r + 1.
Proof.
  intros Hr Hleap month preceding. subst preceding.
  assert (Hmonth : 32 * month ≤ r + 50 < 32 * month + 32).
  { subst month. rewrite Z.shiftr_div_pow2 by lia. change (2 ^ 5) with 32.
    Z.div_mod_to_equations. lia. }
  clearbody month.
  unfold valid_date, _days_in_month, _days_before_month. rewrite Hleap.
  destruct leapyear; simpl in Hr; each_month month; simpl;
    repeat match goal with
    | |- context [?x <? ?y] => destruct (Z.ltb_spec x y)
    end; simpl; lia.
Qed.

(** [_ord2ymd] returns a calendar date, and [_ymd2ord] maps it back. *)
Lemma ord2ymd_spec (n : Z) :
  let '(y, m, d) := _ord2ymd n in
  valid_date y m d ∧ _ymd2ord y m d = n.
Proof.
  unfold _ord2ymd, _DI400Y, _DI100Y, _DI4Y.
  set (n0 := n - 1).
  set (n400 := n0 / 146097). set (r400 := n0 mod 146097).
  set (n100 := r400 / 36524). set (r100 := r400 mod 36524).
  set (n4 := r100 / 1461). set (r4 := r100 mod 1461).
  set (n1 := r4 / 365). set (r1 := r4 mod 365).
  assert (H400 : n0 = 146097 * n400 + r400 /\ 0 <= r400 < 146097).
  { subst n400 r400. Z.div_mod_to_equations. lia. }
  assert (H100 : r400 = 36524 * n100 + r100 /\ 0 <= r100 < 36524).
  { subst n100 r100. Z.div_mod_to_equations. lia. }
  assert (H4 : r100 = 1461 * n4 + r4 /\ 0 <= r4 < 1461).
  { subst n4 r4. Z.div_mod_to_equations. lia. }
  assert (H1 : r4 = 365 * n1 + r1 /\ 0 <= r1 < 365).
  { subst n1 r1. Z.div_mod_to_equations. lia. }
  clearbody n400 r400 n100 r100 n4 r4 n1 r1.
  destruct ((n1 =? 4) || (n100 =? 4)) eqn:Hlast.
  - (* the last day of a leap year *)
    apply orb_true_iff in Hlast.
    assert (Hyear : n400 * 400 + 1 + (n100 * 100 + n4 * 4 + n1) - 1
                    = n400 * 400 + 1 + ((n100 - if n100 =? 4 then 1 else 0) * 100
                        + (if n100 =? 4 then 24 else n4) * 4 + 3)).
    { destruct Hlast as [?%Z.eqb_eq|?%Z.eqb_eq];
        destruct (Z.eqb_spec n100 4); lia. }
    rewrite Hyear. unfold valid_date, _ymd2ord, _days_in_month, _days_before_month.
    rewrite is_leap_decomposed, days_before_year_decomposed;
      try (destruct Hlast as [?%Z.eqb_eq|?%Z.eqb_eq];
           destruct (Z.eqb_spec n100 4); lia).
    simpl.
    destruct Hlast as [?%Z.eqb_eq|?%Z.eqb_eq]; destruct (Z.eqb_spec n100 4);
      simpl;
      repeat match goal with
      | |- context [?x =? ?y] => destruct (Z.eqb_spec x y)
      end; simpl; lia.
  - apply orb_false_iff in Hlast as [Hn1%Z.eqb_neq Hn100%Z.eqb_neq].
    assert (Hb : 0 <= n100 <= 3) by lia.
    assert (Hc : 0 <= n4 <= 24) by lia.
    assert (He : 0 <= n1 <= 3) by lia.
    pose proof (is_leap_decomposed n400 n100 n4 n1 Hb Hc He) as Hleap.
    pose proof (days_before_year_decomposed n400 n100 n4 n1 Hb Hc He) as Hdby.
    set (leapyear := (n1 =? 3) && (negb (n4 =? 24) || (n100 =? 3))) in *.
    assert (Hr1 : 0 <= r1 < 365 + int_of_bool leapyear)
      by (destruct leapyear; simpl; lia).
    pose proof (month_day_of_year _ r1 leapyear Hr1 Hleap) as Hmd.
    simpl in Hmd.
    destruct (r1 <? _) eqn:Hbefore;
      (destruct Hmd as [Hvalid Hdays]; split; [exact Hvalid|];
       unfold _ymd2ord; rewrite Hdby; lia).
Qed.

(** A year has 365 days, or 366 when it is a leap year. *)
Lemma days_before_year_succ (y : Z) :
  _days_before_year (y + 1) = _days_before_year y + 365 + int_of_bool (_is_leap y).
Proof.
  unfold _days_before_year, _is_leap.
  repeat match goal with
  | |- context [?x =? ?y] => destruct (Z.eqb_spec x y)
  end; cbn [int_of_bool andb orb negb]; Z.div_mod_to_equations; lia.
Qed.

Lemma days_before_year_mono (y k : Z) :
  0 ≤ k → _days_before_year y + 365 * k ≤ _days_before_year (y + k).
Proof.
  intros Hk. pattern k. apply natlike_ind; [|intros x Hx IH|done].
  - replace (y + 0) with y by lia. lia.
  - replace (y + Z.succ x) with (y + x + 1) by lia.
    rewrite days_before_year_succ. destruct (_is_leap (y + x)); simpl; lia.
Qed.

(** The ordinals of a year lie after those of all earlier years. *)
Lemma ymd2ord_bounds (y m d : Z) :
  valid_date y m d →
  _days_before_year y < _ymd2ord y m d ≤ _days_before_year y + 365 + int_of_bool (_is_leap y).
Proof.
  unfold valid_date, _ymd2ord, _days_before_month, _days_in_month.
  intros [Hm Hd]. each_month m; destruct (_is_leap y); simpl in *; lia.
Qed.

(** Lexicographic order on dates implies order of ordinals. *)
Lemma ymd2ord_lt (y1 m1 d1 y2 m2 d2 : Z) :
  valid_date y1 m1 d1 → valid_date y2 m2 d2 →
  y1 < y2 ∨ (y1 = y2 ∧ (m1 < m2 ∨ (m1 = m2 ∧ d1 < d2))) →
  _ymd2ord y1 m1 d1 < _ymd2ord y2 m2 d2.
Proof.
  intros Hv1 Hv2 [Hy|[-> Hmd]].
  - pose proof (ymd2ord_bounds _ _ _ Hv1). pose proof (ymd2ord_bounds _ _ _ Hv2).
    pose proof (days_before_year_mono (y1 + 1) (y2 - (y1 + 1)) ltac:(lia)) as Hmono.
    replace (y1 + 1 + (y2 - (y1 + 1))) with y2 in Hmono by lia.
    rewrite days_before_year_succ in Hmono. lia.
  - unfold valid_date, _ymd2ord, _days_before_month, _days_in_month in *.
    destruct Hv1 as [Hm1 Hd1], Hv2 as [Hm2 Hd2].
    destruct Hmd as [Hm|[-> Hd]]; [|lia].
    destruct (_is_leap y2); each_month m1; each_month m2; simpl in *; lia.
Qed.

Lemma days_in_month_le (y m : Z) : _days_in_month y m ≤ 31.
Proof.
  unfold _days_in_month, _DAYS_IN_MONTH.
  destruct ((m =? 2) && _is_leap y); [lia|].
  repeat case_match; lia.
Qed.

(** What [fromtimestamp] returns: the date of the day [t // 86400] after
    the epoch and the time of day [t % 86400]. *)
Lemma fromtimestamp_ok (t : Z) (dt : datetime) :
  fromtimestamp t = Ok dt →
  valid_date (dt_year dt) (dt_month dt) (dt_day dt)
  ∧ _ymd2ord (dt_year dt) (dt_month dt) (dt_day dt) = t / 86400 + EPOCH_ORDINAL
  ∧ MINYEAR ≤ dt_year dt ≤ MAXYEAR
  ∧ dt_hour dt * 3600 + dt_minute dt * 60 + dt_second dt = t mod 86400
  ∧ 0 ≤ dt_hour dt < 24 ∧ 0 ≤ dt_minute dt < 60 ∧ 0 ≤ dt_second dt < 60.
Proof.
  unfold fromtimestamp. pose proof (ord2ymd_spec (t / 86400 + EPOCH_ORDINAL)) as Hymd.
  destruct (_ord2ymd (t / 86400 + EPOCH_ORDINAL)) as [[y m] d].
  destruct Hymd as [Hvalid Hord].
  destruct ((MINYEAR <=? y) && (y <=? MAXYEAR)) eqn:Hyear; [|done].
  intros [= <-]. cbn [dt_year dt_month dt_day dt_hour dt_minute dt_second].
  apply andb_true_iff in Hyear as [?%Z.leb_le ?%Z.leb_le].
  assert (Hrem : 0 <= t mod 86400 < 86400) by (apply Z.mod_pos_bound; lia).
  revert Hrem. generalize (t mod 86400). intros r Hrem.
  split; [exact Hvalid|]. split; [exact Hord|].
  repeat split; try done; Z.div_mod_to_equations; lia.
Qed.

Lemma fromtimestamp_fields_in_range (t : Z) (dt : datetime) :
  fromtimestamp t = Ok dt → datetime_fields_in_range dt.
Proof.
  intros Hdt. apply fromtimestamp_ok in Hdt
    as ([Hm Hd] & _ & Hy & _ & Hh & Hmi & Hs).
  pose proof (days_in_month_le (dt_year dt) (dt_month dt)).
  unfold datetime_fields_in_range, MINYEAR, MAXYEAR in *. lia.
Qed.

(** Every instant of the years 1 to 9999 has a datetime. *)
Lemma fromtimestamp_total (t : Z) :
  -62135596800 ≤ t ≤ 253402300799 → ∃ dt, fromtimestamp t = Ok dt.
Proof.
  intros Ht. unfold fromtimestamp.
  pose proof (ord2ymd_spec (t / 86400 + EPOCH_ORDINAL)) as Hymd.
  destruct (_ord2ymd (t / 86400 + EPOCH_ORDINAL)) as [[y m] d].
  destruct Hymd as [Hvalid Hord].
  pose proof (ymd2ord_bounds _ _ _ Hvalid) as Hb. rewrite Hord in Hb.
  assert (Hday : 1 <= t / 86400 + EPOCH_ORDINAL <= 3652059).
  { unfold EPOCH_ORDINAL. Z.div_mod_to_equations. lia. }
  assert (Hy : MINYEAR <= y <= MAXYEAR).
  { unfold MINYEAR, MAXYEAR. split.
    - destruct (Z.le_gt_cases 1 y) as [|Hlow]; [done|]. exfalso.
      pose proof (days_before_year_mono (y + 1) (1 - (y + 1)) ltac:(lia)) as Hmono.
      replace (y + 1 + (1 - (y + 1))) with 1 in Hmono by lia.
      rewrite days_before_year_succ in Hmono.
      change (_days_before_year 1) with 0 in Hmono. lia.
    - destruct (Z.le_gt_cases y 9999) as [|Hhigh]; [done|]. exfalso.
      pose proof (days_before_year_mono 10000 (y - 10000) ltac:(lia)) as Hmono.
      replace (10000 + (y - 10000)) with y in Hmono by lia.
      change (_days_before_year 10000) with 3652059 in Hmono. lia. }
  destruct Hy as [Hlow%Z.leb_le Hhigh%Z.leb_le].
  rewrite Hlow, Hhigh. by eexists.
Qed.

(** ** ISO strings and their order *)

(** Python orders strings by code point, as [String.compare] does.
    On prefixes of equal length the order is lexicographic. *)
Lemma string_compare_app (s1 s2 t1 t2 : string) :
  String.length s1 = String.length s2 →
  String.compare (s1 +:+ t1) (s2 +:+ t2)
  = lexico (String.compare s1 s2) (String.compare t1 t2).
Proof.
  revert s2. induction s1 as [|c1 s1 IH]; intros [|c2 s2] Hlen;
    simpl in *; try done.
  destruct (Ascii.compare c1 c2); try done. apply IH. congruence.
Qed.

Lemma string_compare_refl (s : string) : String.compare s s = Eq.
Proof.
  induction s as [|c s IH]; simpl; [done|].
  assert (Hc : Ascii.compare c c = Eq).
  { unfold Ascii.compare. apply N.compare_refl. }
  by rewrite Hc.
Qed.

Lemma string_length_app (s1 s2 : string) :
  String.length (s1 +:+ s2) = (String.length s1 + String.length s2)%nat.
Proof. induction s1 as [|c s1 IH]; simpl; [done|]. by rewrite IH. Qed.

Lemma length_low_digits (w : nat) (n : Z) : String.length (low_digits w n) = w.
Proof.
  revert n. induction w as [|w IH]; intros n; simpl; [done|].
  rewrite string_length_app, IH. simpl. lia.
Qed.

(** Digits are ordered as their values are. *)
Lemma digit_compare (a b : Z) :
  0 ≤ a < 10 → 0 ≤ b < 10 →
  Ascii.compare (digit a) (digit b) = (a ?= b).
Proof.
  intros Ha Hb.
  assert (Hca : a = 0 \/ a = 1 \/ a = 2 \/ a = 3 \/ a = 4 \/ a = 5 \/ a = 6
                \/ a = 7 \/ a = 8 \/ a = 9) by lia.
  assert (Hcb : b = 0 \/ b = 1 \/ b = 2 \/ b = 3 \/ b = 4 \/ b = 5 \/ b = 6
                \/ b = 7 \/ b = 8 \/ b = 9) by lia.
  repeat (destruct Hca as [->|Hca]); try subst a;
    repeat (destruct Hcb as [->|Hcb]); try subst b; reflexivity.
Qed.

(** ** ISO strings and their order *)

Lemma low_digits_S (w : nat) (n : Z) :
  low_digits (S w) n = low_digits w (n / 10) +:+ String (digit (n mod 10)) EmptyString.
Proof. reflexivity. Qed.

Lemma string_compare_single (c1 c2 : ascii) :
  String.compare (String c1 EmptyString) (String c2 EmptyString) = Ascii.compare c1 c2.
Proof. simpl. by destruct (Ascii.compare c1 c2). Qed.

Lemma Z_compare_div_mod (a b : Z) :
  (a ?= b) = lexico (a / 10 ?= b / 10) (a mod 10 ?= b mod 10).
Proof.
  destruct (Z.compare_spec (a / 10) (b / 10)) as [Hq|Hq|Hq]; simpl.
  - destruct (Z.compare_spec (a mod 10) (b mod 10)) as [Hr|Hr|Hr];
      [apply Z.compare_eq_iff|apply Z.compare_lt_iff|apply Z.compare_gt_iff];
      Z.div_mod_to_equations; lia.
  - apply Z.compare_lt_iff. Z.div_mod_to_equations. lia.
  - apply Z.compare_gt_iff. Z.div_mod_to_equations. lia.
Qed.

(** Numbers printed on the same width are ordered as their values. *)
Lemma low_digits_compare (w : nat) (a b : Z) :
  0 ≤ a < 10 ^ Z.of_nat w → 0 ≤ b < 10 ^ Z.of_nat w →
  String.compare (low_digits w a) (low_digits w b) = (a ?= b).
Proof.
  revert a b. induction w as [|w IH]; intros a b Ha Hb.
  { change (10 ^ Z.of_nat 0) with 1 in *.
    assert (a = 0) as -> by lia. assert (b = 0) as -> by lia. done. }
  rewrite Nat2Z.inj_succ, Z.pow_succ_r in Ha, Hb by lia.
  assert (Hqa : 0 <= a / 10 < 10 ^ Z.of_nat w).
  { revert Ha. generalize (10 ^ Z.of_nat w). intros p Ha.
    Z.div_mod_to_equations. lia. }
  assert (Hqb : 0 <= b / 10 < 10 ^ Z.of_nat w).
  { revert Hb. generalize (10 ^ Z.of_nat w). intros p Hb.
    Z.div_mod_to_equations. lia. }
  rewrite !low_digits_S.
  rewrite string_compare_app by (by rewrite !length_low_digits).
  rewrite (IH _ _ Hqa Hqb), string_compare_single.
  rewrite digit_compare by (Z.div_mod_to_equations; lia).
  symmetry. apply Z_compare_div_mod.
Qed.

Lemma count_digits_le (fuel w : nat) (n : Z) :
  (1 ≤ w)%nat → 0 ≤ n < 10 ^ Z.of_nat w → (count_digits fuel n ≤ w)%nat.
Proof.
  revert w n. induction fuel as [|fuel IH]; intros w n Hw Hn; [done|].
  cbn [count_digits].
  destruct (Z.ltb_spec n 10) as [Hsmall|Hbig]; [done|].
  destruct w as [|w]; [lia|].
  rewrite Nat2Z.inj_succ, Z.pow_succ_r in Hn by lia.
  destruct w as [|w].
  { change (10 ^ Z.of_nat 0) with 1 in Hn. lia. }
  apply le_n_S, IH; [lia|].
  revert Hn. generalize (10 ^ Z.of_nat (S w)). intros p Hn.
  Z.div_mod_to_equations. lia.
Qed.

(** A number that fits the width is printed on exactly that width. *)
Lemma format_0d_in_range (w : nat) (n : Z) :
  (1 ≤ w)%nat → 0 ≤ n < 10 ^ Z.of_nat w →
  format_0d w n = low_digits w n.
Proof.
  intros Hw Hn. unfold format_0d.
  by rewrite Nat.max_l by (by apply count_digits_le).
Qed.

Lemma isoformat_in_range (dt : datetime) :
  datetime_fields_in_range dt →
  isoformat dt =
    low_digits 4 (dt_year dt) +:+ "-" +:+ low_digits 2 (dt_month dt) +:+ "-"
    +:+ low_digits 2 (dt_day dt) +:+ " "
    +:+ low_digits 2 (dt_hour dt) +:+ ":" +:+ low_digits 2 (dt_minute dt) +:+ ":"
    +:+ low_digits 2 (dt_second dt) +:+ "+00:00".
Proof.
  intros (Hy & Hm & Hd & Hh & Hmi & Hs). unfold isoformat.
  rewrite (format_0d_in_range 4 (dt_year dt)) by (done || lia).
  by rewrite !(format_0d_in_range 2) by (done || lia).
Qed.

(** The order of two ISO strings is the lexicographic order of their
    fields. *)
Lemma isoformat_compare (dt1 dt2 : datetime) :
  datetime_fields_in_range dt1 → datetime_fields_in_range dt2 →
  String.compare (isoformat dt1) (isoformat dt2) =
    lexico (dt_year dt1 ?= dt_year dt2)
      (lexico (dt_month dt1 ?= dt_month dt2)
         (lexico (dt_day dt1 ?= dt_day dt2)
            (lexico (dt_hour dt1 ?= dt_hour dt2)
               (lexico (dt_minute dt1 ?= dt_minute dt2)
                  (dt_second dt1 ?= dt_second dt2))))).
Proof.
  intros H1 H2. rewrite !isoformat_in_range by done.
  destruct H1 as (Hy1 & Hm1 & Hd1 & Hh1 & Hmi1 & Hs1).
  destruct H2 as (Hy2 & Hm2 & Hd2 & Hh2 & Hmi2 & Hs2).
  assert (Hsep : forall (sep s1 s2 : string),
             String.compare (sep +:+ s1) (sep +:+ s2) = String.compare s1 s2).
  { intros sep s1 s2. rewrite string_compare_app by done.
    by rewrite string_compare_refl. }
  rewrite string_compare_app, low_digits_compare by (by rewrite ?length_low_digits).
  f_equal. rewrite Hsep.
  rewrite string_compare_app, low_digits_compare by (by rewrite ?length_low_digits).
  f_equal. rewrite Hsep.
  rewrite string_compare_app, low_digits_compare by (by rewrite ?length_low_digits).
  f_equal. rewrite Hsep.
  rewrite string_compare_app, low_digits_compare by (by rewrite ?length_low_digits).
  f_equal. rewrite Hsep.
  rewrite string_compare_app, low_digits_compare by (by rewrite ?length_low_digits).
  f_equal. rewrite Hsep.
  rewrite string_compare_app, low_digits_compare by (by rewrite ?length_low_digits).
  rewrite string_compare_refl. by destruct (dt_second dt1 ?= dt_second dt2).
Qed.

(** Later instants have strictly greater ISO strings. *)
Lemma isoformat_strictly_monotone (t1 t2 : Z) (dt1 dt2 : datetime) :
  fromtimestamp t1 = Ok dt1 → fromtimestamp t2 = Ok dt2 → t1 < t2 →
  String.compare (isoformat dt1) (isoformat dt2) = Lt.
Proof.
  intros H1 H2 Hlt.
  rewrite isoformat_compare by (by eapply fromtimestamp_fields_in_range).
  apply fromtimestamp_ok in H1 as (Hv1 & Hord1 & _ & Hrem1 & Hh1 & Hmi1 & Hs1).
  apply fromtimestamp_ok in H2 as (Hv2 & Hord2 & _ & Hrem2 & Hh2 & Hmi2 & Hs2).
  assert (Hdays : t1 / 86400 < t2 / 86400
                  \/ (t1 / 86400 = t2 / 86400 /\ t1 mod 86400 < t2 mod 86400))
    by (Z.div_mod_to_equations; lia).
  pose proof (ymd2ord_lt _ _ _ _ _ _ Hv1 Hv2) as Hfwd.
  pose proof (ymd2ord_lt _ _ _ _ _ _ Hv2 Hv1) as Hbwd.
  destruct (Z.compare_spec (dt_year dt1) (dt_year dt2)) as [Hy|Hy|Hy]; simpl;
    [|done|exfalso; lia].
  destruct (Z.compare_spec (dt_month dt1) (dt_month dt2)) as [Hm|Hm|Hm]; simpl;
    [|done|exfalso; lia].
  destruct (Z.compare_spec (dt_day dt1) (dt_day dt2)) as [Hd|Hd|Hd]; simpl;
    [|done|exfalso; lia].
  rewrite Hy, Hm, Hd in Hord1.
  assert (Hsame : t1 / 86400 = t2 / 86400) by lia.
  assert (Hrem : t1 mod 86400 < t2 mod 86400) by lia.
  clear Hfwd Hbwd Hdays Hord1 Hord2.
  destruct (Z.compare_spec (dt_hour dt1) (dt_hour dt2)) as [Hh|Hh|Hh]; simpl;
    [|done|exfalso; lia].
  destruct (Z.compare_spec (dt_minute dt1) (dt_minute dt2)) as [Hmi|Hmi|Hmi]; simpl;
    [|done|exfalso; lia].
  apply Z.compare_lt_iff. lia.
Qed.

(** ** [list.sort] *)

Section SortFacts.
Context {A K : Type} (key : A → K) (lt : K → K → bool).
Hypothesis lt_asym : ∀ k1 k2, lt k1 k2 = true → lt k2 k1 = false.

Lemma insert_sorted_perm (x : A) (l : list A) :
  insert_sorted key lt x l ≡ₚ x :: l.
Proof.
  induction l as [|y l IH]; simpl; [done|].
  destruct (lt (key x) (key y)); [done|].
  rewrite IH. apply Permutation_swap.
Qed.

(** Sorting rearranges the list and loses nothing. *)
Lemma list_sort_perm (l : list A) : list_sort key lt l ≡ₚ l.
Proof.
  unfold list_sort.
  cut (∀ acc, foldl (λ acc x, insert_sorted key lt x acc) acc l ≡ₚ acc ++ l).
  { intros Hacc. apply Hacc. }
  induction l as [|x l IH]; intros acc; simpl.
  - by rewrite app_nil_r.
  - rewrite IH, insert_sorted_perm. simpl. apply Permutation_middle.
Qed.

Lemma insert_sorted_sorted (x : A) (l : list A) :
  Sorted (key_ordered key lt) l →
  Sorted (key_ordered key lt) (insert_sorted key lt x l).
Proof.
  induction 1 as [|y l Hsorted IH Hhd]; simpl.
  { repeat constructor. }
  destruct (lt (key x) (key y)) eqn:Hlt.
  - constructor; [by constructor|]. constructor. by apply lt_asym.
  - constructor; [done|].
    destruct l as [|z l]; simpl.
    + by constructor.
    + destruct (lt (key x) (key z)); constructor; [done|].
      by inversion Hhd.
Qed.

(** After sorting, no element has a key below the key of the element
    before it. *)
Lemma list_sort_sorted (l : list A) :
  Sorted (key_ordered key lt) (list_sort key lt l).
Proof.
  unfold list_sort.
  cut (∀ acc, Sorted (key_ordered key lt) acc →
         Sorted (key_ordered key lt)
           (foldl (λ acc x, insert_sorted key lt x acc) acc l)).
  { intros Hacc. apply Hacc. constructor. }
  induction l as [|x l IH]; intros acc Hsorted; simpl; [done|].
  by apply IH, insert_sorted_sorted.
Qed.
End SortFacts.

(** [<] on strings is asymmetric. *)
Lemma string_ltb_asym (s1 s2 : string) :
  String.ltb s1 s2 = true → String.ltb s2 s1 = false.
Proof.
  unfold String.ltb. rewrite (String.compare_antisym s1 s2).
  by destruct (String.compare s2 s1).
Qed.

(** ** The trip log *)

(** The trips [new_trip] makes have a start epoch: its third argument. *)
Lemma new_trip_started_at_epoch (start_station end_station : Station)
    (t t' : Z) (trip : Trip) :
  new_trip start_station end_station t t' = Ok trip → started_at_epoch trip t.
Proof.
  unfold new_trip. intros Htrip.
  apply result_bind_ok in Htrip as (dt & Hdt & Htrip).
  apply result_bind_ok in Htrip as (dt' & Hdt' & [= <-]).
  by exists dt.
Qed.

(** A trip has at most one start epoch: the string [started_at]
    determines the instant. *)
Lemma started_at_epoch_unique (trip : Trip) (t1 t2 : Z) :
  started_at_epoch trip t1 → started_at_epoch trip t2 → t1 = t2.
Proof.
  intros (dt1 & Hdt1 & Hs1) (dt2 & Hdt2 & Hs2).
  destruct (Z.lt_trichotomy t1 t2) as [Hlt|[Heq|Hgt]]; [|done|].
  - pose proof (isoformat_strictly_monotone _ _ _ _ Hdt1 Hdt2 Hlt) as Hcmp.
    rewrite <- Hs1, <- Hs2, string_compare_refl in Hcmp. done.
  - pose proof (isoformat_strictly_monotone _ _ _ _ Hdt2 Hdt1 Hgt) as Hcmp.
    rewrite <- Hs1, <- Hs2, string_compare_refl in Hcmp. done.
Qed.

(** [new_trip] succeeds on instants of the years 1 to 9999. *)
Lemma new_trip_total (start_station end_station : Station) (t t' : Z) :
  -62135596800 ≤ t ≤ 253402300799 → -62135596800 ≤ t' ≤ 253402300799 →
  ∃ trip, new_trip start_station end_station t t' = Ok trip.
Proof.
  intros Ht Ht'. unfold new_trip.
  destruct (fromtimestamp_total t Ht) as [dt ->].
  destruct (fromtimestamp_total t' Ht') as [dt' ->].
  by eexists.
Qed.

(** Every trip of the log of a registry was made by [new_trip]: the
    property holds of the empty log of [__init__] and [update] keeps it. *)
Lemma reconcile_log_epochs `{Libm} (lu : Z) (bike_json : bike_json)
    (self : BikeRegistry) :
  Forall (λ trip, ∃ t, started_at_epoch trip t) (trips self) →
  Forall (λ trip, ∃ t, started_at_epoch trip t)
    (trips (reconcile lu bike_json self).2).
Proof.
  intros Hlog.
  destruct (bikes self !! bj_bike_id bike_json) as [old_bike|] eqn:Hold.
  - rewrite (reconcile_tracked _ _ _ _ Hold).
    repeat case_match; simpl; try done.
    apply Forall_app. split; [done|]. repeat constructor.
    eexists. by eapply new_trip_started_at_epoch.
  - rewrite (reconcile_untracked _ _ _ Hold). by case_match.
Qed.

(** X4: [update] keeps the log made of trips of [new_trip]: if every
    trip of the log has a start epoch before [update], so has every trip
    after it, whatever was fetched and whether or not the payload was
    processed to the end. *)
Lemma update_log_epochs `{Libm} (free_bike_status_json : fetched free_bike_status)
    (self : BikeRegistry) :
  Forall (λ trip, ∃ t, started_at_epoch trip t) (trips self) →
  Forall (λ trip, ∃ t, started_at_epoch trip t)
    (trips (update free_bike_status_json self).2).
Proof.
  intros Hlog. destruct free_bike_status_json as [| |e|doc]; [done..|].
  destruct (decide (last_updated self = Some (fbs_last_updated doc))) as [Heq|Hne].
  - unfold update, mbind, method_bind, gets. simpl.
    by rewrite bool_decide_eq_true_2.
  - rewrite (update_fresh _ _ Hne).
    match goal with |- context [for_each ?body ?l ?s] =>
      assert (Hstart : Forall (λ trip, ∃ t, started_at_epoch trip t) (trips s))
        by done;
      revert Hstart; generalize s
    end.
    induction (fbs_bikes doc) as [|bike_json rest IH]; intros s Hs; [done|].
    rewrite for_each_cons.
    pose proof (reconcile_log_epochs (fbs_last_updated doc) bike_json s Hs) as Hstep.
    destruct (reconcile (fbs_last_updated doc) bike_json s) as [[[]|e] s1];
      simpl in *; [by apply IH|done].
Qed.

(** The ride back to S1 is logged after the trip of scenario 1. *)
Lemma update_log_epochs_witness :
  Forall (λ trip, ∃ t, started_at_epoch trip t) (trips registry_logged)
  ∧ Forall (λ trip, ∃ t, started_at_epoch trip t)
      (trips (update (H:=reference_libm) (Fetched payload_return)
                registry_logged).2).
Proof.
  assert (Hlog : Forall (λ trip, ∃ t, started_at_epoch trip t)
                   (trips registry_logged)).
  { repeat constructor. exists 1000%Z. eexists.
    split; [vm_compute; reflexivity|reflexivity]. }
  split; [exact Hlog|].
  exact (update_log_epochs (H:=reference_libm) (Fetched payload_return)
           registry_logged Hlog).
Defined.



Local Close Scope Z_scope.

(** * More properties of the code *)

(** ** The order of floats *)

Lemma SFcompare_rank (f1 f2 : spec_float) :
  SFcompare f1 f2 = (r1 ← SFrank f1; r2 ← SFrank f2; Some (rank_compare r1 r2)).
Proof.
  destruct f1 as [s1|s1| |s1 m1 e1], f2 as [s2|s2| |s2 m2 e2];
    try destruct s1; try destruct s2; try reflexivity.
  - cbn. f_equal. rewrite Z.compare_opp, (Z.compare_antisym e1 e2).
    by destruct (e1 ?= e2)%Z.
  - cbn. f_equal. by destruct (e1 ?= e2)%Z.
Qed.

Lemma rank_compare_spec (r1 r2 : Z * Z * Z) :
  let '(a1, b1, c1) := r1 in
  let '(a2, b2, c2) := r2 in
  match rank_compare r1 r2 with
  | Lt => (a1 < a2 ∨ (a1 = a2 ∧ (b1 < b2 ∨ (b1 = b2 ∧ c1 < c2))))%Z
  | Eq => r1 = r2
  | Gt => (a2 < a1 ∨ (a1 = a2 ∧ (b2 < b1 ∨ (b1 = b2 ∧ c2 < c1))))%Z
  end.
Proof.
  destruct r1 as [[a1 b1] c1], r2 as [[a2 b2] c2]. unfold rank_compare. cbn.
  destruct (Z.compare_spec a1 a2), (Z.compare_spec b1 b2),
    (Z.compare_spec c1 c2); cbn; subst; try done; lia.
Qed.

(** [<] on floats through ranks. *)
Lemma float_ltb_rank (x y : float) :
  (x <? y)%float = true ↔
  ∃ rx ry, SFrank (Prim2SF x) = Some rx ∧ SFrank (Prim2SF y) = Some ry
           ∧ rank_compare rx ry = Lt.
Proof.
  rewrite FloatAxioms.ltb_spec. unfold SFltb. rewrite SFcompare_rank.
  destruct (SFrank (Prim2SF x)) as [rx|], (SFrank (Prim2SF y)) as [ry|];
    cbn; split; try done; try (by intros (? & ? & ? & ? & ?)).
  - destruct (rank_compare rx ry) eqn:Hc; try done. intros _. by exists rx, ry.
  - intros (rx' & ry' & [= <-] & [= <-] & ->). done.
Qed.

Lemma float_not_nan_rank (x : float) :
  is_nan x = false ↔ ∃ rx, SFrank (Prim2SF x) = Some rx.
Proof.
  unfold is_nan. rewrite FloatAxioms.eqb_spec. unfold SFeqb. rewrite SFcompare_rank.
  destruct (SFrank (Prim2SF x)) as [rx|]; cbn; split; try done.
  - intros _. by exists rx.
  - intros _. pose proof (rank_compare_spec rx rx) as Hspec.
    destruct rx as [[a b] c]. destruct (rank_compare (a, b, c) (a, b, c)); [done|lia..].
  - by intros [? ?].
Qed.

(** [x < a <= b] gives [x < b], where [a <= b] is read off a sorted list:
    [b] is not below [a] and is not a NaN. *)
Lemma float_lt_le_trans (x a b : float) :
  (x <? a)%float = true → (b <? a)%float = false → is_nan b = false →
  (x <? b)%float = true.
Proof.
  intros Hxa Hba Hb.
  apply float_ltb_rank in Hxa as (rx & ra & Hrx & Hra & Hlt).
  apply float_not_nan_rank in Hb as [rb Hrb].
  apply float_ltb_rank. exists rx, rb. repeat split; [done..|].
  assert (Hnot : rank_compare rb ra ≠ Lt).
  { intros Hc. apply not_true_iff_false in Hba. apply Hba, float_ltb_rank.
    by exists rb, ra. }
  pose proof (rank_compare_spec rx ra) as H1. rewrite Hlt in H1.
  pose proof (rank_compare_spec rb ra) as H2.
  pose proof (rank_compare_spec rx rb) as H3.
  destruct rx as [[x1 x2] x3], ra as [[a1 a2] a3], rb as [[b1 b2] b3].
  destruct (rank_compare (b1, b2, b3) (a1, a2, a3)); [|done|];
    destruct (rank_compare (x1, x2, x3) (b1, b2, b3)); try done;
    simplify_eq; lia.
Qed.

(** [a <= b < x] gives [a < x]. *)
Lemma float_le_lt_trans (a b x : float) :
  (b <? x)%float = true → (b <? a)%float = false → is_nan a = false →
  (a <? x)%float = true.
Proof.
  intros Hbx Hba Ha.
  apply float_ltb_rank in Hbx as (rb & rx & Hrb & Hrx & Hlt).
  apply float_not_nan_rank in Ha as [ra Hra].
  apply float_ltb_rank. exists ra, rx. repeat split; [done..|].
  assert (Hnot : rank_compare rb ra ≠ Lt).
  { intros Hc. apply not_true_iff_false in Hba. apply Hba, float_ltb_rank.
    by exists rb, ra. }
  pose proof (rank_compare_spec rb rx) as H1. rewrite Hlt in H1.
  pose proof (rank_compare_spec rb ra) as H2.
  pose proof (rank_compare_spec ra rx) as H3.
  destruct rx as [[x1 x2] x3], ra as [[a1 a2] a3], rb as [[b1 b2] b3].
  destruct (rank_compare (b1, b2, b3) (a1, a2, a3)); [|done|];
    destruct (rank_compare (a1, a2, a3) (x1, x2, x3)); try done;
    simplify_eq; lia.
Qed.

(** [a <= b <= c] gives [a <= c]. *)
Lemma float_le_trans (a b c : float) :
  (b <? a)%float = false → (c <? b)%float = false → is_nan b = false →
  (c <? a)%float = false.
Proof.
  intros Hba Hcb Hb. apply not_true_iff_false. intros Hca.
  assert (Hcb' : (c <? b)%float = true) by by eapply float_lt_le_trans.
  congruence.
Qed.

(** ** Station lists sorted by longitude *)

(** In a sorted station list every later station is not west of every
    earlier one. *)
Lemma sorted_by_lon_pairwise (station_list : list Station) (i j : nat)
    (a b : Station) :
  sorted_by_lon station_list → i < j →
  station_list !! i = Some a → station_list !! j = Some b →
  py_lt b a = false.
Proof.
  intros [Hsorted Hnan]. revert i j a b.
  induction Hsorted as [|c l Hsorted IH Hhd]; intros i j a b Hij Ha Hb; [done|].
  apply Forall_cons in Hnan as [Hc Hnan].
  destruct j as [|j]; [lia|]. destruct i as [|i]; simpl in *.
  - injection Ha as ->.
    destruct l as [|d l]; [done|]. inversion Hhd as [|? ? Hcd]; subst.
    destruct j as [|j]; simpl in *.
    + by injection Hb as ->.
    + assert (Hdb : py_lt b d = false)
        by (apply (IH Hnan 0 (S j)); [lia|done..]).
      apply Forall_cons in Hnan as [Hd _].
      unfold key_ordered, py_lt in *. simpl in *. by eapply float_le_trans.
  - apply (IH Hnan i j); [lia|done..].
Qed.

Lemma sorted_by_lon_not_nan (station_list : list Station) (i : nat) (s : Station) :
  sorted_by_lon station_list → station_list !! i = Some s →
  is_nan (s_lon s) = false.
Proof. intros [_ Hnan] Hs. by eapply (Forall_lookup_1 _ _ _ _ Hnan). Qed.

(** On a sorted station list [bisect_left] returns the index that
    separates the stations strictly west of the bike from the others. *)
Lemma bisect_left_partition (station_list : list Station) (self : Bike) :
  sorted_by_lon station_list →
  ∃ i1, bisect_left py_lt station_list self = Ok i1
        ∧ i1 ≤ length station_list
        ∧ ∀ j s, station_list !! j = Some s → (py_lt s self = true ↔ j < i1).
Proof.
  intros Hsorted.
  destruct (bisect_left_loop_spec (py_lt (A:=Station) (B:=Bike)) station_list
              self 0 (length station_list)) as (i1 & Hi1 & _ & Hle & Hat & Hbefore);
    [lia..|].
  exists i1. split; [done|]. split; [done|]. intros j s Hs. split.
  - intros Hwest. destruct (decide (j < i1)) as [|Hge]; [done|]. exfalso.
    apply lookup_lt_Some in Hs as Hj.
    destruct Hat as (am & Ham & Hnot); [lia|].
    destruct (decide (j = i1)) as [->|Hne]; [congruence|].
    pose proof (sorted_by_lon_pairwise _ i1 j am s Hsorted ltac:(lia) Ham Hs) as Hord.
    pose proof (sorted_by_lon_not_nan _ _ _ Hsorted Ham) as Hnan.
    unfold py_lt in *. simpl in *.
    rewrite (float_le_lt_trans _ _ _ Hwest Hord Hnan) in Hnot. done.
  - intros Hlt. destruct Hbefore as (am & Ham & Hwest); [lia|].
    destruct (decide (j = i1 - 1)) as [->|Hne]; [congruence|].
    pose proof (sorted_by_lon_pairwise _ j (i1 - 1) s am Hsorted ltac:(lia) Hs Ham)
      as Hord.
    pose proof (sorted_by_lon_not_nan _ _ _ Hsorted Hs) as Hnan.
    unfold py_lt in *. simpl in *. by eapply float_le_lt_trans.
Qed.

(** And [bisect_right] the index that separates the stations strictly
    east of the bike from the others. *)
Lemma bisect_right_partition (station_list : list Station) (self : Bike) :
  sorted_by_lon station_list →
  ∃ i2, bisect_right py_lt station_list self = Ok i2
        ∧ i2 ≤ length station_list
        ∧ ∀ j s, station_list !! j = Some s → (py_lt self s = true ↔ i2 ≤ j).
Proof.
  intros Hsorted.
  destruct (bisect_right_loop_spec (py_lt (A:=Bike) (B:=Station)) station_list
              self 0 (length station_list)) as (i2 & Hi2 & _ & Hle & Hat & Hbefore);
    [lia..|].
  exists i2. split; [done|]. split; [done|]. intros j s Hs. split.
  - intros Heast. destruct (decide (i2 ≤ j)) as [|Hlt]; [done|]. exfalso.
    destruct Hbefore as (am & Ham & Hnot); [lia|].
    destruct (decide (j = i2 - 1)) as [->|Hne]; [congruence|].
    pose proof (sorted_by_lon_pairwise _ j (i2 - 1) s am Hsorted ltac:(lia) Hs Ham)
      as Hord.
    pose proof (sorted_by_lon_not_nan _ _ _ Hsorted Ham) as Hnan.
    unfold py_lt in *. simpl in *.
    rewrite (float_lt_le_trans _ _ _ Heast Hord Hnan) in Hnot. done.
  - intros Hge. apply lookup_lt_Some in Hs as Hj.
    destruct Hat as (am & Ham & Heast); [lia|].
    destruct (decide (j = i2)) as [->|Hne]; [congruence|].
    pose proof (sorted_by_lon_pairwise _ i2 j am s Hsorted ltac:(lia) Ham Hs) as Hord.
    pose proof (sorted_by_lon_not_nan _ _ _ Hsorted Hs) as Hnan.
    unfold py_lt in *. simpl in *. by eapply float_lt_le_trans.
Qed.

(** X5: on a station list sorted by longitude the two bisections of
    [find_station] return indices [i1 <= i2 <= len(station_list)]: the
    stations before [i1] are those strictly west of the bike, the
    stations from [i2] on those strictly east of it, and the stations in
    between are neither. *)
Theorem bisect_sorted (station_list : list Station) (self : Bike) :
  sorted_by_lon station_list →
  ∃ i1 i2, bisect_left py_lt station_list self = Ok i1
           ∧ bisect_right py_lt station_list self = Ok i2
           ∧ i1 ≤ i2 ≤ length station_list
           ∧ ∀ j s, station_list !! j = Some s →
               (py_lt s self = true ↔ j < i1) ∧ (py_lt self s = true ↔ i2 ≤ j).
Proof.
  intros Hsorted.
  destruct (bisect_left_partition station_list self Hsorted)
    as (i1 & Hi1 & Hle1 & Hwest).
  destruct (bisect_right_partition station_list self Hsorted)
    as (i2 & Hi2 & Hle2 & Heast).
  exists i1, i2. split; [done|]. split; [done|]. split.
  - split; [|done]. destruct (decide (i1 ≤ i2)) as [|Hgt]; [done|]. exfalso.
    destruct (lookup_lt_is_Some_2 station_list i2) as [s Hs]; [lia|].
    assert (Hw : py_lt s self = true) by (apply (Hwest i2 s Hs); lia).
    assert (He : py_lt self s = true) by (by apply (Heast i2 s Hs)).
    unfold py_lt in Hw, He. apply float_ltb_asym in Hw. congruence.
  - intros j s Hs. split; [by apply Hwest|by apply Heast].
Qed.

(** The stations of the scenarios are sorted. *)
Lemma sorted_by_lon_sample : sorted_by_lon [station_S1; station_S2; station_S3].
Proof. split; repeat constructor. Qed.

(** A bike at S2: one station is west of it, one east. *)
Lemma bisect_sorted_witness :
  sorted_by_lon [station_S1; station_S2; station_S3]
  ∧ ∃ i1 i2,
      bisect_left py_lt [station_S1; station_S2; station_S3] sighting_at_S2 = Ok i1
      ∧ bisect_right py_lt [station_S1; station_S2; station_S3] sighting_at_S2 = Ok i2
      ∧ i1 ≤ i2 ≤ length [station_S1; station_S2; station_S3]
      ∧ ∀ j s, [station_S1; station_S2; station_S3] !! j = Some s →
          (py_lt s sighting_at_S2 = true ↔ j < i1)
          ∧ (py_lt sighting_at_S2 s = true ↔ i2 ≤ j).
Proof.
  split; [exact sorted_by_lon_sample|].
  exact (bisect_sorted [station_S1; station_S2; station_S3] sighting_at_S2
           sorted_by_lon_sample).
Defined.

(** ** [Bike.find_station] on sorted lists *)

Section FindStationMore.
Context `{Libm}.

(** X6: a station of the list is returned only if its distance to the
    bike was computed and is below 10 metres; anything else returned is
    the placeholder at the position of the bike. *)
Theorem find_station_within_reach (self : Bike) (station_list : list Station)
    (s : Station) :
  find_station self station_list = Ok s →
  s = flex_parking self
  ∨ s ∈ station_list ∧ ∃ d, distance s self = Ok d ∧ (d <? 10)%float = true.
Proof.
  destruct (find_station_unfold self station_list)
    as (i1 & i2 & _ & _ & _ & _ & ->).
  intros Hs.
  apply result_bind_ok in Hs as (d1 & Hd1 & Hs).
  apply result_bind_ok in Hs as (d2 & Hd2 & Hs).
  apply result_bind_ok in Hd1 as (s1 & Hs1 & Hd1).
  apply result_bind_ok in Hd2 as (s2 & Hs2 & Hd2).
  destruct ((d1 <? d2)%float && (d1 <? 10)%float) eqn:Hfirst.
  - apply andb_true_iff in Hfirst as [_ Hnear].
    assert (s = s1) as -> by congruence.
    right. split; [|by exists d1].
    apply getitem_ok in Hs1. by eapply list_elem_of_lookup_2.
  - destruct (d2 <? 10)%float eqn:Hnear.
    + assert (s = s2) as -> by congruence.
      right. split; [|by exists d2].
      apply getitem_ok in Hs2. by eapply list_elem_of_lookup_2.
    + left. congruence.
Qed.

(** X7: on a sorted station list, and as long as the distances can be
    computed, the lookup returns exactly when some station lies strictly
    east of the bike; otherwise a subscript is out of range. *)
Theorem find_station_returns_iff_east (self : Bike) (station_list : list Station) :
  sorted_by_lon station_list →
  Forall (λ s, ∃ d, distance s self = Ok d) station_list →
  (∃ s, find_station self station_list = Ok s)
  ↔ Exists (λ s, py_lt self s = true) station_list.
Proof.
  intros Hsorted Hdist. split.
  - intros [s Hs].
    destruct (find_station_unfold self station_list)
      as (i1 & i2 & _ & _ & _ & Hr & Heq).
    rewrite Heq in Hs.
    apply result_bind_ok in Hs as (d1 & Hd1 & Hs).
    apply result_bind_ok in Hs as (d2 & Hd2 & Hs).
    apply result_bind_ok in Hd2 as (s2 & Hs2 & Hd2).
    apply getitem_ok in Hs2. apply Exists_exists. exists s2.
    split; [by eapply list_elem_of_lookup_2|by apply Hr].
  - intros Heast. apply Exists_exists in Heast as (e & He & Heast).
    apply list_elem_of_lookup in He as [j Hj].
    destruct (bisect_left_partition station_list self Hsorted)
      as (i1 & Hi1 & _ & Hwest).
    destruct (bisect_right_partition station_list self Hsorted)
      as (i2 & Hi2 & _ & Heastof).
    assert (Hi2j : i2 ≤ j) by by apply (Heastof j e Hj).
    assert (Hi1j : i1 ≤ j).
    { destruct (decide (i1 ≤ j)) as [|Hlt]; [done|]. exfalso.
      assert (Hw : py_lt e self = true) by (apply (Hwest j e Hj); lia).
      unfold py_lt in *. apply float_ltb_asym in Hw. congruence. }
    apply lookup_lt_Some in Hj as Hlen.
    destruct (lookup_lt_is_Some_2 station_list i1) as [s1 Hs1]; [lia|].
    destruct (lookup_lt_is_Some_2 station_list i2) as [s2 Hs2]; [lia|].
    rewrite Forall_lookup in Hdist.
    destruct (Hdist _ _ Hs1) as [d1 Hd1]. destruct (Hdist _ _ Hs2) as [d2 Hd2].
    unfold find_station. rewrite Hi1, Hi2. simpl.
    apply getitem_ok in Hs1, Hs2. rewrite Hs1, Hs2. simpl.
    rewrite Hd1, Hd2. simpl.
    destruct ((d1 <? d2)%float && (d1 <? 10)%float); [by eexists|].
    destruct (d2 <? 10)%float; by eexists.
Qed.
End FindStationMore.

(** The bike parked at S2 again: S2 is in the list, at distance 0. *)
Lemma find_station_within_reach_witness :
  find_station (H:=reference_libm) sighting_at_S2
    [station_S1; station_S2; station_S3] = Ok station_S2
  ∧ (station_S2 = flex_parking sighting_at_S2
     ∨ station_S2 ∈ [station_S1; station_S2; station_S3]
       ∧ ∃ d, distance (H:=reference_libm) station_S2 sighting_at_S2 = Ok d
              ∧ (d <? 10)%float = true).
Proof.
  assert (Hfound : find_station (H:=reference_libm) sighting_at_S2
            [station_S1; station_S2; station_S3] = Ok station_S2)
    by (vm_compute; reflexivity).
  split; [exact Hfound|].
  exact (find_station_within_reach (H:=reference_libm) sighting_at_S2
           [station_S1; station_S2; station_S3] station_S2 Hfound).
Defined.

(** East of S2 the lookup returns, as S3 lies further east. *)
Lemma find_station_returns_iff_east_witness :
  sorted_by_lon [station_S1; station_S2; station_S3]
  ∧ Forall (λ s, ∃ d, distance (H:=reference_libm) s sighting_east = Ok d)
      [station_S1; station_S2; station_S3]
  ∧ ((∃ s, find_station (H:=reference_libm) sighting_east
             [station_S1; station_S2; station_S3] = Ok s)
     ↔ Exists (λ s, py_lt sighting_east s = true)
         [station_S1; station_S2; station_S3]).
Proof.
  assert (Hdist : Forall (λ s, ∃ d, distance (H:=reference_libm) s sighting_east
                                    = Ok d)
                    [station_S1; station_S2; station_S3])
    by (repeat constructor; eexists; vm_compute; reflexivity).
  split; [exact sorted_by_lon_sample|]. split; [exact Hdist|].
  exact (find_station_returns_iff_east (H:=reference_libm) sighting_east
           [station_S1; station_S2; station_S3] sorted_by_lon_sample Hdist).
Defined.

(** ** Invariants of [BikeRegistry.update] *)

(** ** What [update] keeps *)

Section UpdateInvariants.
Context `{Libm}.

(** A relation between registries that holds across every step of
    [update] holds across [update]. *)
Lemma update_rel (R : BikeRegistry → BikeRegistry → Prop)
    (free_bike_status_json : fetched free_bike_status) (self : BikeRegistry) :
  (∀ s, R s s) →
  (∀ s1 s2 s3, R s1 s2 → R s2 s3 → R s1 s3) →
  (∀ lu ttl' s, R s (set_last_updated_ttl lu ttl' s).2) →
  (∀ lu bike_json s, R s (reconcile lu bike_json s).2) →
  R self (update free_bike_status_json self).2.
Proof.
  intros Hrefl Htrans Hset Hstep.
  destruct free_bike_status_json as [| |e|doc]; [apply Hrefl..|].
  destruct (decide (last_updated self = Some (fbs_last_updated doc))) as [Heq|Hne].
  - unfold update, mbind, method_bind, gets. simpl.
    rewrite bool_decide_eq_true_2 by done. apply Hrefl.
  - rewrite (update_fresh _ _ Hne).
    eapply Htrans; [apply (Hset (fbs_last_updated doc) (fbs_ttl doc))|]. simpl.
    match goal with |- R ?s0 _ => generalize s0 end.
    induction (fbs_bikes doc) as [|bike_json rest IH]; intros s; [apply Hrefl|].
    rewrite for_each_cons.
    pose proof (Hstep (fbs_last_updated doc) bike_json s) as Hs.
    destruct (reconcile (fbs_last_updated doc) bike_json s) as [[[]|e] s1];
      simpl in *; [|done].
    eapply Htrans; [exact Hs|apply IH].
Qed.

(** X8: [update] never forgets a bike: whatever the payload and whether
    the loop completes or raises, every registered bike stays registered. *)
Theorem update_keeps_bikes (free_bike_status_json : fetched free_bike_status)
    (self : BikeRegistry) (bike_id : string) :
  is_Some (bikes self !! bike_id) →
  is_Some (bikes (update free_bike_status_json self).2 !! bike_id).
Proof.
  revert bike_id.
  apply (update_rel (λ s s', ∀ bike_id, is_Some (bikes s !! bike_id) →
                                        is_Some (bikes s' !! bike_id))).
  - done.
  - intros s1 s2 s3 H12 H23 bike_id Hin. by apply H23, H12.
  - done.
  - intros lu bike_json s bike_id Hin.
    destruct (decide (bike_id = bj_bike_id bike_json)) as [->|Hne].
    + destruct Hin as [old_bike Hold].
      rewrite (reconcile_tracked _ _ _ _ Hold).
      repeat case_match; simpl; try (by rewrite lookup_insert_eq); by eexists.
    + destruct (reconcile_frame lu bike_json s) as (_ & _ & _ & Hother).
      by rewrite Hother.
Qed.

(** X9: [update] writes to nothing but the fleet, the trip log,
    [last_updated] and [ttl]: the station index, the city name and the
    feed address are those it started with. *)
Theorem update_keeps_stations (free_bike_status_json : fetched free_bike_status)
    (self : BikeRegistry) :
  stations (update free_bike_status_json self).2 = stations self
  ∧ city_name (update free_bike_status_json self).2 = city_name self
  ∧ free_bike_status_url (update free_bike_status_json self).2
    = free_bike_status_url self.
Proof.
  apply (update_rel (λ s s', stations s' = stations s
                             ∧ city_name s' = city_name s
                             ∧ free_bike_status_url s' = free_bike_status_url s)).
  - done.
  - intros s1 s2 s3 (? & ? & ?) (? & ? & ?). repeat split; congruence.
  - done.
  - intros lu bike_json s.
    destruct (bikes s !! bj_bike_id bike_json) as [old_bike|] eqn:Hold.
    + rewrite (reconcile_tracked _ _ _ _ Hold). by repeat case_match.
    + rewrite (reconcile_untracked _ _ _ Hold). by case_match.
Qed.

(** One observation appends at most one trip, of more than 100 seconds. *)
Lemma reconcile_log_step (lu : Z) (bike_json : bike_json) (self : BikeRegistry) :
  trips (reconcile lu bike_json self).2 = trips self
  ∨ ∃ trip, trips (reconcile lu bike_json self).2 = trips self ++ [trip]
            ∧ (duration trip > 100)%Z.
Proof.
  destruct (bikes self !! bj_bike_id bike_json) as [old_bike|] eqn:Hold.
  - rewrite (reconcile_tracked _ _ _ _ Hold).
    destruct (away_from old_bike (Bike_init bike_json lu)) as [away|e]; [|by left].
    destruct (away && (100 <? lu - b_last_seen old_bike)%Z) eqn:Hcond; [|by left].
    apply andb_true_iff in Hcond as [_ Hlate%Z.ltb_lt].
    repeat case_match; simpl; try (by left).
    right. eexists. split; [done|].
    match goal with Ht : new_trip _ _ _ _ = Ok _ |- _ =>
      unfold new_trip in Ht;
      apply result_bind_ok in Ht as (dt & _ & Ht);
      apply result_bind_ok in Ht as (dt' & _ & [= <-]) end.
    simpl. lia.
  - rewrite (reconcile_untracked _ _ _ Hold). left. by case_match.
Qed.

Lemma for_each_log_grows (lu : Z) (bikes_json : list bike_json)
    (self : BikeRegistry) :
  ∃ new_trips,
    trips (for_each (reconcile lu) bikes_json self).2 = trips self ++ new_trips
    ∧ length new_trips ≤ length bikes_json.
Proof.
  revert self. induction bikes_json as [|bike_json rest IH]; intros self.
  { exists []. simpl. split; [by rewrite app_nil_r|lia]. }
  rewrite for_each_cons.
  pose proof (reconcile_log_step lu bike_json self) as Hstep.
  destruct (reconcile lu bike_json self) as [[[]|e] s1]; simpl in *.
  - destruct (IH s1) as (new_trips & -> & Hlen).
    destruct Hstep as [->|(trip & -> & _)].
    + exists new_trips. split; [done|lia].
    + exists (trip :: new_trips). rewrite <- app_assoc. split; [done|simpl; lia].
  - destruct Hstep as [->|(trip & -> & _)].
    + exists []. split; [by rewrite app_nil_r|simpl; lia].
    + exists [trip]. split; [done|simpl; lia].
Qed.

(** X10: the trip log only grows, by at most one trip per observation of
    the payload; no trip already logged is removed or changed. *)
Theorem update_log_grows (doc : free_bike_status) (self : BikeRegistry) :
  ∃ new_trips,
    trips (update (Fetched doc) self).2 = trips self ++ new_trips
    ∧ length new_trips ≤ length (fbs_bikes doc).
Proof.
  destruct (decide (last_updated self = Some (fbs_last_updated doc))) as [Heq|Hne].
  { exists []. unfold update, mbind, method_bind, gets. simpl.
    rewrite bool_decide_eq_true_2 by done. simpl.
    split; [by rewrite app_nil_r|lia]. }
  rewrite (update_fresh _ _ Hne).
  match goal with |- context [for_each ?body ?l ?s0] =>
    exact (for_each_log_grows (fbs_last_updated doc) l s0) end.
Qed.

(** X11: every trip [update] logs lasted more than 100 seconds: if the
    log holds only such trips before, it holds only such trips after. *)
Theorem update_log_durations (free_bike_status_json : fetched free_bike_status)
    (self : BikeRegistry) :
  Forall (λ trip, (duration trip > 100)%Z) (trips self) →
  Forall (λ trip, (duration trip > 100)%Z)
    (trips (update free_bike_status_json self).2).
Proof.
  apply (update_rel (λ s s', Forall (λ trip, (duration trip > 100)%Z) (trips s) →
                             Forall (λ trip, (duration trip > 100)%Z) (trips s'))).
  - done.
  - intros s1 s2 s3 H12 H23 Hlog. by apply H23, H12.
  - done.
  - intros lu bike_json s Hlog.
    destruct (reconcile_log_step lu bike_json s) as [->|(trip & -> & Hlong)];
      [done|].
    apply Forall_app. split; [done|]. by repeat constructor.
Qed.
End UpdateInvariants.

(** Bike "a" is still registered after a payload that does not mention
    it. *)
Lemma update_keeps_bikes_witness :
  is_Some (bikes registry_scenario !! "a")
  ∧ is_Some (bikes (update (H:=reference_libm) (Fetched payload_regressed)
                      registry_scenario).2 !! "a").
Proof.
  assert (Hin : is_Some (bikes registry_scenario !! "a")) by (by eexists).
  split; [exact Hin|].
  exact (update_keeps_bikes (H:=reference_libm) (Fetched payload_regressed)
           registry_scenario "a" Hin).
Defined.

(** The ride back to S1 took 300 seconds. *)
Lemma update_log_durations_witness :
  Forall (λ trip, (duration trip > 100)%Z) (trips registry_logged)
  ∧ trips (update (H:=reference_libm) (Fetched payload_return) registry_logged).2
    = [trip_S1_S2; trip_S2_S1]
  ∧ Forall (λ trip, (duration trip > 100)%Z)
      (trips (update (H:=reference_libm) (Fetched payload_return)
                registry_logged).2).
Proof.
  assert (Hlog : Forall (λ trip, (duration trip > 100)%Z) (trips registry_logged))
    by (repeat constructor).
  split; [exact Hlog|]. split; [vm_compute; reflexivity|].
  exact (update_log_durations (H:=reference_libm) (Fetched payload_return)
           registry_logged Hlog).
Defined.

Section UpdateMore.
Context `{Libm}.

(** Bikes seen less than 100 seconds ago give no trip, and stay so. *)
Lemma reconcile_recent (lu : Z) (bike_json : bike_json) (self : BikeRegistry) :
  (∀ bike_id bike, bikes self !! bike_id = Some bike →
                   (lu - b_last_seen bike ≤ 100)%Z) →
  trips (reconcile lu bike_json self).2 = trips self
  ∧ ∀ bike_id bike, bikes (reconcile lu bike_json self).2 !! bike_id = Some bike →
                    (lu - b_last_seen bike ≤ 100)%Z.
Proof.
  intros Hrecent.
  assert (Hins : ∀ bike, b_last_seen bike = lu →
            ∀ bike_id bike', <[bj_bike_id bike_json := bike]> (bikes self) !! bike_id
                             = Some bike' → (lu - b_last_seen bike' ≤ 100)%Z).
  { intros bike Hlu bike_id bike' Hlook.
    destruct (decide (bj_bike_id bike_json = bike_id)) as [<-|Hne].
    - rewrite lookup_insert_eq in Hlook. injection Hlook as <-. lia.
    - rewrite lookup_insert_ne in Hlook by done. by eapply Hrecent. }
  destruct (bikes self !! bj_bike_id bike_json) as [old_bike|] eqn:Hold.
  - rewrite (reconcile_tracked _ _ _ _ Hold).
    destruct (away_from old_bike (Bike_init bike_json lu)) as [away|e]; [|done].
    assert (Hsoon : (100 <? lu - b_last_seen old_bike)%Z = false).
    { apply Z.ltb_ge. by eapply Hrecent. }
    rewrite Hsoon, andb_false_r. simpl. split; [done|].
    apply Hins. by case_match.
  - rewrite (reconcile_untracked _ _ _ Hold).
    case_match; simpl; [|done]. split; [done|]. by apply Hins.
Qed.

Lemma for_each_reconcile_recent (lu : Z) (bikes_json : list bike_json)
    (self : BikeRegistry) :
  (∀ bike_id bike, bikes self !! bike_id = Some bike →
                   (lu - b_last_seen bike ≤ 100)%Z) →
  trips (for_each (reconcile lu) bikes_json self).2 = trips self.
Proof.
  revert self. induction bikes_json as [|bike_json rest IH]; intros self Hs; [done|].
  rewrite for_each_cons.
  destruct (reconcile_recent lu bike_json self Hs) as [Hlog Hs1].
  destruct (reconcile lu bike_json self) as [[[]|e] s1]; simpl in *; [|done].
  rewrite <- Hlog. by apply IH.
Qed.

(** X12: no trip without a bike last seen more than 100 seconds before the
    payload: if every registered bike was seen within the last 100
    seconds, [update] leaves the trip log as it is. In particular the
    first payload after construction gives no trip. *)
Theorem update_no_trip_when_recent (doc : free_bike_status) (self : BikeRegistry) :
  (∀ bike_id bike, bikes self !! bike_id = Some bike →
                   (fbs_last_updated doc - b_last_seen bike ≤ 100)%Z) →
  trips (update (Fetched doc) self).2 = trips self.
Proof.
  intros Hrecent.
  destruct (decide (last_updated self = Some (fbs_last_updated doc))) as [Heq|Hne].
  { unfold update, mbind, method_bind, gets. simpl.
    by rewrite bool_decide_eq_true_2. }
  rewrite (update_fresh _ _ Hne).
  match goal with |- trips (for_each _ ?l ?s0).2 = _ =>
    exact (for_each_reconcile_recent (fbs_last_updated doc) l s0 Hrecent) end.
Qed.

(** Once seen at [lu], a bike is still seen at [lu] after any further
    observation of the same payload. *)
Lemma reconcile_seen_at_stable (lu : Z) (bike_json : bike_json)
    (self : BikeRegistry) (bike_id : string) :
  seen_at lu self bike_id → seen_at lu (reconcile lu bike_json self).2 bike_id.
Proof.
  intros (bike & Hbike & Hlu). unfold seen_at.
  destruct (decide (bike_id = bj_bike_id bike_json)) as [->|Hne].
  - rewrite (reconcile_tracked _ _ _ _ Hbike).
    repeat case_match; simpl; rewrite ?lookup_insert_eq; by eexists.
  - destruct (reconcile_frame lu bike_json self) as (_ & _ & _ & Hother).
    rewrite Hother by done. by exists bike.
Qed.

(** An observation that is reconciled without an exception leaves its
    bike seen at [lu], unless the bike is new and disabled. *)
Lemma reconcile_seen_at (lu : Z) (bike_json : bike_json) (self self' : BikeRegistry) :
  reconcile lu bike_json self = (Ok tt, self') →
  is_Some (bikes self !! bj_bike_id bike_json) ∨ bj_is_disabled bike_json = 0%Z →
  seen_at lu self' (bj_bike_id bike_json).
Proof.
  intros Hstep Hknown. unfold seen_at.
  destruct (bikes self !! bj_bike_id bike_json) as [old_bike|] eqn:Hold.
  - rewrite (reconcile_tracked _ _ _ _ Hold) in Hstep.
    repeat case_match; simplify_eq; simpl; rewrite lookup_insert_eq; by eexists.
  - destruct Hknown as [[? [=]]|Henabled].
    rewrite (reconcile_untracked _ _ _ Hold), Henabled in Hstep.
    unfold set_bike in Hstep. simpl in Hstep. simplify_eq. simpl. rewrite lookup_insert_eq. by eexists.
Qed.

Lemma for_each_reconcile_seen_at (lu : Z) (bikes_json : list bike_json)
    (self self' : BikeRegistry) (bike_json : bike_json) :
  for_each (reconcile lu) bikes_json self = (Ok tt, self') →
  bike_json ∈ bikes_json →
  is_Some (bikes self !! bj_bike_id bike_json) ∨ bj_is_disabled bike_json = 0%Z →
  seen_at lu self' (bj_bike_id bike_json).
Proof.
  revert self. induction bikes_json as [|first rest IH]; intros self Hloop Hin Hknown.
  { by apply elem_of_nil in Hin. }
  rewrite for_each_cons in Hloop.
  destruct (reconcile lu first self) as [[[]|e] s1] eqn:Hstep; [|done].
  assert (Hstable : ∀ bike_id, seen_at lu s1 bike_id → seen_at lu self' bike_id).
  { clear -Hloop. revert s1 Hloop.
    induction rest as [|next rest IH]; intros s1 Hloop bike_id Hseen.
    - injection Hloop as <-. done.
    - rewrite for_each_cons in Hloop.
      pose proof (reconcile_seen_at_stable lu next s1 bike_id Hseen) as Hnext.
      destruct (reconcile lu next s1) as [[[]|e] s2]; [|done].
      by eapply IH. }
  apply elem_of_cons in Hin as [->|Hin].
  - apply Hstable. by eapply reconcile_seen_at.
  - eapply IH; [done..|].
    destruct Hknown as [[old_bike Hold]|Henabled]; [|by right]. left.
    destruct (decide (bj_bike_id bike_json = bj_bike_id first)) as [Heq|Hne].
    + rewrite Heq in *. pose proof (reconcile_seen_at lu first self s1 Hstep) as Hs.
      destruct Hs as (bike & -> & _); [by left; eexists|by eexists].
    + destruct (reconcile_frame lu first self) as (_ & _ & _ & Hother).
      rewrite Hstep in Hother. simpl in Hother. rewrite Hother by done. by eexists.
Qed.

(** X13: when [update] processes a payload to the end, every bike of the
    payload that was registered before or is reported enabled is
    registered with [last_seen] equal to the payload's [last_updated]. *)
Theorem update_stamps_payload_bikes (doc : free_bike_status)
    (self self' : BikeRegistry) (bike_json : bike_json) :
  last_updated self ≠ Some (fbs_last_updated doc) →
  update (Fetched doc) self = (Ok tt, self') →
  bike_json ∈ fbs_bikes doc →
  is_Some (bikes self !! bj_bike_id bike_json) ∨ bj_is_disabled bike_json = 0%Z →
  ∃ bike, bikes self' !! bj_bike_id bike_json = Some bike
          ∧ b_last_seen bike = fbs_last_updated doc.
Proof.
  intros Hne Hupdate Hin Hknown. rewrite (update_fresh _ _ Hne) in Hupdate.
  by eapply for_each_reconcile_seen_at.
Qed.

(** X14: after [update] on a decoded payload the stored [last_updated] is
    the payload's, whether the payload was skipped, processed to the end
    or abandoned on an exception; unless it was skipped, the stored [ttl]
    is the payload's too. *)
Theorem update_stores_last_updated (doc : free_bike_status) (self : BikeRegistry) :
  last_updated (update (Fetched doc) self).2 = Some (fbs_last_updated doc)
  ∧ (last_updated self ≠ Some (fbs_last_updated doc) →
     ttl (update (Fetched doc) self).2 = Some (fbs_ttl doc)).
Proof.
  destruct (decide (last_updated self = Some (fbs_last_updated doc))) as [Heq|Hne].
  - unfold update, mbind, method_bind, gets. simpl.
    by rewrite bool_decide_eq_true_2.
  - rewrite (update_fresh _ _ Hne).
    match goal with |- context [for_each ?body ?l ?s0] =>
      destruct (for_each_reconcile_frame (fbs_last_updated doc) l s0)
        as (Hlu & Httl & _)
    end.
    rewrite Hlu, Httl. done.
Qed.

(** X15: what [update] has done once is not done again: on the same
    payload a second [update] changes nothing, also when the first one
    was abandoned on an exception in the middle of the payload. *)
Theorem update_twice (doc : free_bike_status) (self : BikeRegistry) :
  update (Fetched doc) (update (Fetched doc) self).2
  = (Ok tt, (update (Fetched doc) self).2).
Proof.
  assert (Hlu : last_updated (update (Fetched doc) self).2
                = Some (fbs_last_updated doc)).
  { destruct (decide (last_updated self = Some (fbs_last_updated doc)))
      as [Heq|Hne].
    - unfold update, mbind, method_bind, gets. simpl.
      by rewrite bool_decide_eq_true_2.
    - rewrite (update_fresh _ _ Hne).
      match goal with |- context [for_each ?body ?l ?s0] =>
        destruct (for_each_reconcile_frame (fbs_last_updated doc) l s0)
          as (-> & _)
      end. done. }
  revert Hlu. generalize (update (Fetched doc) self).2. intros s Hlu.
  unfold update, mbind, method_bind, gets. simpl.
  by rewrite bool_decide_eq_true_2.
Qed.

(** X16: if the first fetch after construction fails, the turn ends with a
    [TypeError]: [update] has printed that it will retry and returned,
    [last_updated] and [ttl] are still [None], and their sum is taken. *)
Theorem main_turn_first_fetch_fails `{S : ListSort} (city : string)
    (station_info : fetched station_information) (url : string)
    (berlin_bikes : BikeRegistry) :
  BikeRegistry_init city station_info url = Ok berlin_bikes →
  main_turn FetchIOError berlin_bikes = (Some TypeError, berlin_bikes)
  ∧ main_turn FetchJSONDecodeError berlin_bikes = (Some TypeError, berlin_bikes).
Proof.
  intros Hinit.
  apply BikeRegistry_init_returns in Hinit as (? & ? & ? & _ & _ & _ & ->).
  done.
Qed.

(** Once a payload has been stored, a failed fetch is harmless: the
    turn ends without an exception and the registry is unchanged. *)
Lemma main_turn_later_fetch_fails (berlin_bikes : BikeRegistry) :
  is_Some (last_updated berlin_bikes) → is_Some (ttl berlin_bikes) →
  main_turn FetchIOError berlin_bikes = (None, berlin_bikes)
  ∧ main_turn FetchJSONDecodeError berlin_bikes = (None, berlin_bikes).
Proof.
  intros [lu Hlu] [t Httl]. unfold main_turn. simpl. by rewrite Hlu, Httl.
Qed.
End UpdateMore.

(** Bike "a" turns up at S2, 222 metres away, 50 seconds after it was
    seen at the origin. *)
Lemma update_no_trip_when_recent_witness :
  (∀ bike_id bike, bikes registry_scenario !! bike_id = Some bike →
                   (fbs_last_updated payload_soon - b_last_seen bike ≤ 100)%Z)
  ∧ trips (update (H:=reference_libm) (Fetched payload_soon) registry_scenario).2
    = trips registry_scenario.
Proof.
  assert (Hrecent : ∀ bike_id bike,
            bikes registry_scenario !! bike_id = Some bike →
            (fbs_last_updated payload_soon - b_last_seen bike ≤ 100)%Z).
  { intros bike_id bike Hbike. unfold registry_scenario, bikes in Hbike.
    apply lookup_singleton_Some in Hbike as [_ <-]. done. }
  split; [exact Hrecent|].
  exact (update_no_trip_when_recent (H:=reference_libm) payload_soon
           registry_scenario Hrecent).
Defined.

(** The new enabled bike "b" of the payload of t = 900. *)
Lemma update_stamps_payload_bikes_witness :
  last_updated registry_scenario ≠ Some (fbs_last_updated payload_regressed)
  ∧ (update (H:=reference_libm) (Fetched payload_regressed) registry_scenario).1
    = Ok tt
  ∧ ∃ bike, bikes (update (H:=reference_libm) (Fetched payload_regressed)
                     registry_scenario).2 !! "b" = Some bike
            ∧ b_last_seen bike = 900%Z.
Proof.
  assert (Hne : last_updated registry_scenario
                ≠ Some (fbs_last_updated payload_regressed)) by done.
  assert (Hok : update (H:=reference_libm) (Fetched payload_regressed)
                  registry_scenario
                = (Ok tt, (update (H:=reference_libm) (Fetched payload_regressed)
                             registry_scenario).2))
    by reflexivity.
  split; [exact Hne|]. split; [reflexivity|].
  exact (update_stamps_payload_bikes (H:=reference_libm) payload_regressed
           registry_scenario _ (mkBikeJson "b" 0 0 0) Hne Hok
           ltac:(by apply list_elem_of_here) ltac:(by right)).
Defined.

(** The registry of the document above, and a first poll that fails. *)
Lemma main_turn_first_fetch_fails_witness :
  BikeRegistry_init (S:=reference_sort) "Berlin"
    (Fetched station_information_S2_S1) "free_bike_status.json"
  = Ok registry_fresh
  ∧ main_turn (H:=reference_libm) FetchIOError registry_fresh
    = (Some TypeError, registry_fresh)
  ∧ main_turn (H:=reference_libm) FetchJSONDecodeError registry_fresh
    = (Some TypeError, registry_fresh).
Proof.
  assert (Hinit : BikeRegistry_init (S:=reference_sort) "Berlin"
                    (Fetched station_information_S2_S1) "free_bike_status.json"
                  = Ok registry_fresh)
    by (vm_compute; reflexivity).
  split; [exact Hinit|].
  exact (main_turn_first_fetch_fails (H:=reference_libm) (S:=reference_sort)
           "Berlin"
           (Fetched station_information_S2_S1) "free_bike_status.json"
           registry_fresh Hinit).
Defined.

(** ** [new_trip] *)

Local Open Scope Z_scope.

(** [fromtimestamp] accepts the instants of the years 1 to 9999 only. *)
Lemma fromtimestamp_range (t : Z) (dt : datetime) :
  fromtimestamp t = Ok dt → -62135596800 ≤ t ≤ 253402300799.
Proof.
  intros Hdt. apply fromtimestamp_ok in Hdt as (Hvalid & Hord & Hy & _).
  pose proof (ymd2ord_bounds _ _ _ Hvalid) as Hbounds.
  rewrite <- days_before_year_succ in Hbounds.
  pose proof (days_before_year_mono 1 (dt_year dt - 1)) as Hlow.
  pose proof (days_before_year_mono (dt_year dt + 1) (9999 - dt_year dt)) as Hhigh.
  unfold MINYEAR, MAXYEAR in Hy.
  replace (1 + (dt_year dt - 1)) with (dt_year dt) in Hlow by lia.
  replace (dt_year dt + 1 + (9999 - dt_year dt)) with 10000 in Hhigh by lia.
  change (_days_before_year 1) with 0 in Hlow.
  change (_days_before_year 10000) with 3652059 in Hhigh.
  unfold EPOCH_ORDINAL in Hord.
  revert Hbounds Hlow Hhigh. rewrite Hord.
  generalize (_days_before_year (dt_year dt)) (_days_before_year (dt_year dt + 1)).
  intros a b ???. Z.div_mod_to_equations. lia.
Qed.

(** What a trip of [new_trip] holds. *)
Lemma new_trip_ok (start_station end_station : Station) (t t' : Z) (trip : Trip) :
  new_trip start_station end_station t t' = Ok trip →
  ∃ dt dt', fromtimestamp t = Ok dt ∧ fromtimestamp t' = Ok dt'
            ∧ started_at trip = isoformat dt ∧ ended_at trip = isoformat dt'
            ∧ duration trip = t' - t.
Proof.
  unfold new_trip. intros Htrip.
  apply result_bind_ok in Htrip as (dt & Hdt & Htrip).
  apply result_bind_ok in Htrip as (dt' & Hdt' & [= <-]).
  by exists dt, dt'.
Qed.

(** The ISO strings of two instants compare as the instants do. *)
Lemma isoformat_ltb (t1 t2 : Z) (dt1 dt2 : datetime) :
  fromtimestamp t1 = Ok dt1 → fromtimestamp t2 = Ok dt2 →
  String.ltb (isoformat dt1) (isoformat dt2) = true ↔ t1 < t2.
Proof.
  intros Hdt1 Hdt2. unfold String.ltb. split.
  - intros Hlt. destruct (Z.lt_trichotomy t1 t2) as [Ht|[Ht|Ht]]; [done|..].
    + subst t2. rewrite Hdt1 in Hdt2. injection Hdt2 as <-.
      by rewrite string_compare_refl in Hlt.
    + pose proof (isoformat_strictly_monotone _ _ _ _ Hdt2 Hdt1 Ht) as Hcmp.
      rewrite String.compare_antisym, Hcmp in Hlt. done.
  - intros Ht. by rewrite (isoformat_strictly_monotone _ _ _ _ Hdt1 Hdt2 Ht).
Qed.

(** X17: [new_trip] returns a trip exactly when both epochs are instants of
    the years 1 to 9999; otherwise [fromtimestamp] raises. *)
Theorem new_trip_succeeds_iff (start_station end_station : Station) (t t' : Z) :
  (∃ trip, new_trip start_station end_station t t' = Ok trip)
  ↔ -62135596800 ≤ t ≤ 253402300799 ∧ -62135596800 ≤ t' ≤ 253402300799.
Proof.
  split.
  - intros [trip Htrip].
    apply new_trip_ok in Htrip as (dt & dt' & Hdt & Hdt' & _).
    split; by eapply fromtimestamp_range.
  - intros [Ht Ht']. unfold new_trip.
    destruct (fromtimestamp_total t Ht) as [dt ->].
    destruct (fromtimestamp_total t' Ht') as [dt' ->].
    by eexists.
Qed.

(** X18: the strings of a trip agree with its duration: [started_at] is
    below [ended_at] exactly when the duration is positive, and the two
    are the same string exactly when it is zero. *)
Theorem new_trip_strings_agree_with_duration (start_station end_station : Station)
    (t t' : Z) (trip : Trip) :
  new_trip start_station end_station t t' = Ok trip →
  (String.ltb (started_at trip) (ended_at trip) = true ↔ 0 < duration trip)
  ∧ (started_at trip = ended_at trip ↔ duration trip = 0).
Proof.
  intros Htrip.
  apply new_trip_ok in Htrip as (dt & dt' & Hdt & Hdt' & -> & -> & ->).
  split.
  - rewrite (isoformat_ltb _ _ _ _ Hdt Hdt'). lia.
  - split.
    + intros Heq. destruct (Z.lt_trichotomy t t') as [Ht|[Ht|Ht]]; [|lia|].
      * pose proof (isoformat_strictly_monotone _ _ _ _ Hdt Hdt' Ht) as Hcmp.
        by rewrite Heq, string_compare_refl in Hcmp.
      * pose proof (isoformat_strictly_monotone _ _ _ _ Hdt' Hdt Ht) as Hcmp.
        by rewrite Heq, string_compare_refl in Hcmp.
    + intros Hzero. assert (t' = t) as -> by lia. congruence.
Qed.

(** X19: two trips compare by [started_at], the key of the final sort, as
    their start epochs do. *)
Theorem new_trip_started_at_order (s1 e1 s2 e2 : Station) (t1 t1' t2 t2' : Z)
    (trip1 trip2 : Trip) :
  new_trip s1 e1 t1 t1' = Ok trip1 → new_trip s2 e2 t2 t2' = Ok trip2 →
  String.ltb (started_at trip1) (started_at trip2) = true ↔ t1 < t2.
Proof.
  intros Htrip1 Htrip2.
  apply new_trip_ok in Htrip1 as (dt1 & ? & Hdt1 & _ & -> & _).
  apply new_trip_ok in Htrip2 as (dt2 & ? & Hdt2 & _ & -> & _).
  by apply isoformat_ltb.
Qed.

Local Close Scope Z_scope.

(** X20: [started_at] and [ended_at] have 25 characters, whatever the
    epochs: the fields are zero-padded. *)
Theorem new_trip_string_lengths (start_station end_station : Station)
    (t t' : Z) (trip : Trip) :
  new_trip start_station end_station t t' = Ok trip →
  String.length (started_at trip) = 25 ∧ String.length (ended_at trip) = 25.
Proof.
  intros Htrip.
  apply new_trip_ok in Htrip as (dt & dt' & Hdt & Hdt' & -> & -> & _).
  apply fromtimestamp_fields_in_range in Hdt, Hdt'.
  rewrite !isoformat_in_range by done.
  by rewrite !string_length_app, !length_low_digits.
Qed.

(** ** The sort is stable *)

Section SortStable.
Context {A K : Type} `{EqDecision K} (key : A → K) (lt : K → K → bool).
Hypothesis lt_asym : ∀ k1 k2, lt k1 k2 = true → lt k2 k1 = false.
Hypothesis not_lt_trans : ∀ k1 k2 k3,
  lt k2 k1 = false → lt k3 k2 = false → lt k3 k1 = false.

Lemma key_ordered_trans : Relations_1.Transitive (key_ordered key lt).
Proof. intros a b c Hab Hbc. unfold key_ordered in *. by eapply not_lt_trans. Qed.

Lemma filter_key_none (k : K) (l : list A) :
  Forall (λ a, key a ≠ k) l → filter (λ a, key a = k) l = [].
Proof.
  induction 1 as [|a l Ha Hl IH]; [done|]. by rewrite filter_cons_False.
Qed.

Lemma insert_sorted_filter (k : K) (x : A) (l : list A) :
  Sorted (key_ordered key lt) l →
  filter (λ a, key a = k) (insert_sorted key lt x l)
  = filter (λ a, key a = k) l ++ filter (λ a, key a = k) [x].
Proof.
  intros Hsorted. apply Sorted_StronglySorted in Hsorted; [|apply key_ordered_trans].
  induction Hsorted as [|y l Hsorted IH Hall]; simpl; [done|].
  destruct (lt (key x) (key y)) eqn:Hlt.
  - destruct (decide (key x = k)) as [Hx|Hx].
    + assert (Hnone : filter (λ a, key a = k) (y :: l) = []).
      { apply filter_key_none. constructor.
        - intros Hy. rewrite Hx, <- Hy in Hlt.
          pose proof (lt_asym _ _ Hlt). congruence.
        - eapply Forall_impl; [exact Hall|]. intros z Hyz Hz.
          unfold key_ordered in Hyz. rewrite Hx, <- Hz in Hlt. congruence. }
      rewrite filter_cons_True by done. rewrite Hnone.
      by rewrite filter_cons_True, filter_nil.
    + rewrite filter_cons_False by done.
      rewrite (filter_cons_False _ x []) by done.
      by rewrite filter_nil, app_nil_r.
  - rewrite !(filter_cons _ y), IH. by destruct (decide (key y = k)).
Qed.

Lemma list_sort_filter (k : K) (l : list A) :
  filter (λ a, key a = k) (list_sort key lt l) = filter (λ a, key a = k) l.
Proof.
  unfold list_sort.
  cut (∀ acc, Sorted (key_ordered key lt) acc →
         filter (λ a, key a = k) (foldl (λ acc x, insert_sorted key lt x acc) acc l)
         = filter (λ a, key a = k) acc ++ filter (λ a, key a = k) l).
  { intros Hacc. apply (Hacc []). constructor. }
  induction l as [|x l IH]; intros acc Hsorted; simpl.
  - by rewrite filter_nil, app_nil_r.
  - rewrite IH by (by apply insert_sorted_sorted).
    rewrite insert_sorted_filter by done.
    rewrite <- app_assoc. f_equal. by rewrite <- filter_app.
Qed.
End SortStable.

(** [a <= b] on strings, as the negation of [b < a]. *)
Lemma string_ltb_false (s1 s2 : string) :
  String.ltb s2 s1 = false ↔ String.le s1 s2.
Proof.
  unfold String.le, String.leb, String.ltb.
  rewrite (String.compare_antisym s1 s2).
  by destruct (String.compare s2 s1).
Qed.

Lemma string_ltb_trans (s1 s2 s3 : string) :
  String.ltb s2 s1 = false → String.ltb s3 s2 = false → String.ltb s3 s1 = false.
Proof.
  rewrite !string_ltb_false. intros H12 H23. by etrans.
Qed.

(** X21: the final sort keeps every trip, and trips with the same
    [started_at] stay in the order in which they were detected. *)
Theorem sort_trips_stable (log : list Trip) :
  sort_trips log ≡ₚ log
  ∧ ∀ s, filter (λ trip, started_at trip = s) (sort_trips log)
         = filter (λ trip, started_at trip = s) log.
Proof.
  split.
  - apply list_sort_perm.
  - intros s. apply list_sort_filter.
    + apply string_ltb_asym.
    + apply string_ltb_trans.
Qed.

(** ** [BikeRegistry.__init__] *)

Lemma load_stations_ok (items : list json_station) (acc loaded : list Station) :
  load_stations items acc = Ok loaded →
  ∃ new, loaded = acc ++ new
         ∧ Forall2 (λ station_json s, Station_new station_json = Ok s) items new.
Proof.
  revert acc. induction items as [|station_json rest IH];
    intros acc Hload; simpl in Hload.
  { injection Hload as <-. exists []. by rewrite app_nil_r. }
  apply result_bind_ok in Hload as (s & Hs & Hload).
  destruct (IH _ Hload) as (new & -> & Hnew).
  exists (s :: new). split; [by rewrite <- app_assoc|by constructor].
Qed.

Lemma Station_new_raises (station_json : json_station) (e : exn) :
  Station_new station_json = Raise e →
  e = TypeError ∨ ∃ key, e = KeyError key ∧ key ∈ station_information_keys.
Proof.
  unfold station_information_keys.
  destruct station_json as [[[id|] [name|] [lat|] [lon|]]|]; intros [= <-];
    try (by left);
    right; eexists; (split; [reflexivity|set_solver]).
Qed.

Lemma load_stations_raises (items : list json_station) (acc : list Station)
    (e : exn) :
  load_stations items acc = Raise e →
  e = TypeError ∨ ∃ key, e = KeyError key ∧ key ∈ station_information_keys.
Proof.
  revert acc. induction items as [|station_json rest IH];
    intros acc Hload; simpl in Hload; [done|].
  destruct (Station_new station_json) as [s|e'] eqn:Hs; simpl in Hload.
  - by eapply IH.
  - injection Hload as <-. by eapply Station_new_raises.
Qed.

(** X22: the registry [__init__] returns: no bike, no trip, no
    [last_updated] and [ttl] yet, and as stations a rearrangement of the
    [Station]s made of the items of [data.stations], one per item. If no
    longitude is a NaN, the stations are in the stable sorted order, in
    which no station has a longitude below that of the station before
    it. *)
Theorem BikeRegistry_init_ok `{S : ListSort} (city : string)
    (station_info : fetched station_information) (url : string)
    (self : BikeRegistry) :
  BikeRegistry_init city station_info url = Ok self →
  city_name self = city ∧ free_bike_status_url self = url
  ∧ bikes self = ∅ ∧ ttl self = None ∧ last_updated self = None
  ∧ trips self = []
  ∧ ∃ stations_json items loaded,
      station_info
      = Fetched (JDocumentObject (Some (JDataObject (Some stations_json))))
      ∧ iter_stations stations_json = Ok items
      ∧ Forall2 (λ station_json s, Station_new station_json = Ok s) items loaded
      ∧ stations self ≡ₚ loaded
      ∧ (Forall (λ s, is_nan (s_lon s) = false) loaded →
         stations self = list_sort (λ s : Station, s) py_lt loaded
         ∧ sorted_by_lon (stations self)).
Proof.
  intros Hinit.
  apply BikeRegistry_init_returns in Hinit
    as (stations_json & items & loaded & -> & Hiter & Hload & ->).
  simpl. repeat split.
  apply load_stations_ok in Hload as (new & -> & Hnew). simpl.
  exists stations_json, items, new. split; [done|]. split; [done|].
  split; [done|]. split; [apply stations_sort_perm|].
  intros Hnan. rewrite (stations_sort_consistent _ Hnan). split; [done|]. split.
  - apply list_sort_sorted. intros s1 s2. apply float_ltb_asym.
  - by rewrite list_sort_perm.
Qed.

(** X23: the exceptions of [__init__]. When the fetch raises [IOError] or
    [JSONDecodeError] it is [SystemExit] with the message of the source;
    any other exception of the fetch comes out as it is; on a decoded
    document it is a [TypeError], or a [KeyError] for one of the keys the
    code subscripts, and never [SystemExit]. *)
Theorem BikeRegistry_init_raises `{S : ListSort} (city : string)
    (station_info : fetched station_information) (url : string) (e : exn) :
  BikeRegistry_init city station_info url = Raise e →
  match station_info with
  | FetchIOError | FetchJSONDecodeError =>
      e = SystemExit "Could not load station info json, exiting..."
  | FetchRaises e' => e = e'
  | Fetched _ =>
      e = TypeError ∨ ∃ key, e = KeyError key ∧ key ∈ station_information_keys
  end.
Proof.
  destruct station_info as [| |e'|[[[[[items|n|]|]|]|]|]]; simpl;
    try (by intros [= <-]);
    try (by intros [= <-]; left);
    try (intros [= <-]; right; eexists; split; [reflexivity|];
         unfold station_information_keys; set_solver).
  - destruct (load_stations items []) as [loaded|e'] eqn:Hload; simpl; [done|].
    intros [= <-]. by eapply load_stations_raises.
  - destruct (load_stations (replicate n JStationOther) [])
      as [loaded|e'] eqn:Hload; simpl; [done|].
    intros [= <-]. by eapply load_stations_raises.
Qed.

(** The trip of scenario 1. *)
Lemma new_trip_strings_agree_with_duration_witness :
  new_trip station_S1 station_S2 1000 1200 = Ok trip_S1_S2
  ∧ (String.ltb (started_at trip_S1_S2) (ended_at trip_S1_S2) = true
     ↔ (0 < duration trip_S1_S2)%Z)
  ∧ (started_at trip_S1_S2 = ended_at trip_S1_S2 ↔ duration trip_S1_S2 = 0%Z).
Proof.
  assert (Htrip : new_trip station_S1 station_S2 1000 1200 = Ok trip_S1_S2)
    by (vm_compute; reflexivity).
  split; [exact Htrip|].
  exact (new_trip_strings_agree_with_duration station_S1 station_S2 1000 1200
           trip_S1_S2 Htrip).
Defined.

(** The trip of scenario 1 and the trip back. *)
Lemma new_trip_started_at_order_witness :
  new_trip station_S1 station_S2 1000 1200 = Ok trip_S1_S2
  ∧ new_trip station_S2 station_S1 1200 1500 = Ok trip_S2_S1
  ∧ (String.ltb (started_at trip_S1_S2) (started_at trip_S2_S1) = true
     ↔ (1000 < 1200)%Z).
Proof.
  assert (Htrip1 : new_trip station_S1 station_S2 1000 1200 = Ok trip_S1_S2)
    by (vm_compute; reflexivity).
  assert (Htrip2 : new_trip station_S2 station_S1 1200 1500 = Ok trip_S2_S1)
    by (vm_compute; reflexivity).
  split; [exact Htrip1|]. split; [exact Htrip2|].
  exact (new_trip_started_at_order station_S1 station_S2 station_S2 station_S1
           1000 1200 1200 1500 trip_S1_S2 trip_S2_S1 Htrip1 Htrip2).
Defined.

Lemma new_trip_string_lengths_witness :
  new_trip station_S2 station_S1 1200 1500 = Ok trip_S2_S1
  ∧ String.length (started_at trip_S2_S1) = 25
  ∧ String.length (ended_at trip_S2_S1) = 25.
Proof.
  assert (Htrip : new_trip station_S2 station_S1 1200 1500 = Ok trip_S2_S1)
    by (vm_compute; reflexivity).
  split; [exact Htrip|].
  exact (new_trip_string_lengths station_S2 station_S1 1200 1500 trip_S2_S1 Htrip).
Defined.

(** A document that lists S2 before S1. *)
Lemma BikeRegistry_init_ok_witness :
  BikeRegistry_init (S:=reference_sort) "Berlin"
    (Fetched station_information_S2_S1) "free_bike_status.json"
  = Ok registry_fresh
  ∧ stations registry_fresh = [station_S1; station_S2]
  ∧ ∃ stations_json items loaded,
      Fetched station_information_S2_S1
      = Fetched (JDocumentObject (Some (JDataObject (Some stations_json))))
      ∧ iter_stations stations_json = Ok items
      ∧ Forall2 (λ station_json s, Station_new station_json = Ok s) items loaded
      ∧ stations registry_fresh ≡ₚ loaded
      ∧ (Forall (λ s, is_nan (s_lon s) = false) loaded →
         stations registry_fresh = list_sort (λ s : Station, s) py_lt loaded
         ∧ sorted_by_lon (stations registry_fresh)).
Proof.
  assert (Hinit : BikeRegistry_init (S:=reference_sort) "Berlin"
                    (Fetched station_information_S2_S1) "free_bike_status.json"
                  = Ok registry_fresh)
    by (vm_compute; reflexivity).
  split; [exact Hinit|]. split; [reflexivity|].
  exact (proj2 (proj2 (proj2 (proj2 (proj2 (proj2
           (BikeRegistry_init_ok (S:=reference_sort) "Berlin"
              (Fetched station_information_S2_S1) "free_bike_status.json"
              registry_fresh Hinit))))))).
Defined.

(** An entry without ["lat"]. *)
Lemma BikeRegistry_init_raises_witness :
  BikeRegistry_init (S:=reference_sort) "Berlin"
    (Fetched station_information_no_lat) "free_bike_status.json"
  = Raise (KeyError "lat")
  ∧ (KeyError "lat" = TypeError
     ∨ ∃ key, KeyError "lat" = KeyError key ∧ key ∈ station_information_keys).
Proof.
  assert (Hinit : BikeRegistry_init (S:=reference_sort) "Berlin"
                    (Fetched station_information_no_lat) "free_bike_status.json"
                  = Raise (KeyError "lat"))
    by reflexivity.
  split; [exact Hinit|].
  exact (BikeRegistry_init_raises (S:=reference_sort) "Berlin"
           (Fetched station_information_no_lat) "free_bike_status.json"
           (KeyError "lat") Hinit).
Defined.
